(** * A shallow embedding of [camera_controller.py] (IS8502C camera controller)

    The controller drives one camera over a Telnet control session ([self.tn])
    and an FTP transfer session ([self.ftp]).  We model an instance of
    [CameraController] together with the part of the outside world it talks to
    as one record [World]:
    - the controller's attributes, with the same names as in the source;
    - the device side as scripts: the successive outcomes of FTP connections,
      FTP [NOOP]s, FTP [RETR]s and the lines the device sends on Telnet;
    - the observable effects, in order, as a trace of events (every byte written
      on a channel, every connection attempt, every [time.sleep]);
    - a millisecond clock that only [time.sleep] advances.

    Strings are ASCII [String.string]s; durations are in milliseconds
    ([0.5 * 2 ** k] seconds is [500 * 2 ^ k] ms). *)

From Stdlib Require Import String Ascii List Arith NArith Lia Bool.
From Stdlib Require Import DecimalString.
From coqutil Require Import Datatypes.RecordSetters.
Import ListNotations DoubleBraceUpdate.

Local Open Scope string_scope.

(** ** Data model *)

(** A decoded frame: [img.shape[1]] (width) and [img.shape[0]] (height). *)
Definition image := (nat * nat)%type.

(** An acquisition result [(success, img, msg)], as put on [image_queue]. *)
Definition acq_result := (bool * option image * string)%type.

(** Exceptions raised by an FTP command: [socket.timeout], [EOFError], or any
    other [Exception]; each carries the text of [{e}]. *)
Inductive fault :=
| FTimeout (e : string)
| FEOF (e : string)
| FOther (e : string).

(** Outcome of [retrbinary] followed by [cv2.imdecode]: the payload decodes to
    an image, or [imdecode] returns [None]; or an exception is raised. *)
Inductive retr_outcome :=
| RetrData (img : option image)
| RetrFault (f : fault).

(** What [tn.read_until] meets next on the Telnet link: a CRLF-terminated line,
    or the end of the connection ([EOFError]). *)
Inductive tel_item :=
| TLine (s : string)
| TEOF.

(** Observable effects. *)
Inductive event :=
| EvFtpConnect                 (* ftplib.FTP(); set_pasv; connect; login *)
| EvFtpQuit                    (* self.ftp.quit(), errors swallowed *)
| EvFtpClose                   (* self.ftp.close(), errors swallowed *)
| EvFtpRetr (name : string)    (* retrbinary("RETR " + name) *)
| EvFtpNoop                    (* voidcmd("NOOP") *)
| EvTelDrain                   (* tn.read_very_eager() *)
| EvTelWrite (data : string)   (* tn.write(data) *)
| EvTelRead                    (* tn.read_until(...) *)
| EvTelClose                   (* tn.close(), errors swallowed *)
| EvSleep (ms : N)              (* time.sleep *)
| EvJoin (ms : N).             (* stream_thread.join(timeout) *)

(** Static configuration ([settings]); [stop_h]/[stop_m] is [stop_time_obj]
    as parsed from [stop_time] by [strptime(.., "%H:%M")]. *)
Record Config := mkConfig {
  image_filename : string;
  stream_interval : N;   (* ms *)
  stop_time : string;
  stop_h : N;
  stop_m : N
}.

Record World := mkWorld {
  (* attributes of the CameraController instance *)
  tn : bool;                       (* self.tn is not None *)
  ftp : bool;                      (* self.ftp is not None *)
  streaming : bool;
  paused : bool;
  ftp_keep_alive_running : bool;
  stream_thread : bool;            (* self.stream_thread is not None *)
  timeout_count : nat;
  trigger_count : nat;
  ftp_session_start_time : N;
  last_reconnect_time : N;
  last_capture_time : N;
  image_queue : list acq_result;   (* FIFO: put appends at the end *)
  (* the outside world *)
  clock : N;                       (* ms *)
  trace : list event;
  ftp_connects : list (option string); (* None: login succeeded; Some e: error e *)
  ftp_noops : list (option fault);     (* None: NOOP answered *)
  ftp_retrs : list retr_outcome;
  tel_in : list tel_item;               (* received, not yet read *)
  tel_replies : list (list tel_item)    (* the device's reply to each write *)
}.

(** ** Primitive effects *)

Definition emit (ev : event) (w : World) : World :=
  w {{ trace ::= fun t => app t [ev] }}.

Definition sleep (ms : N) (w : World) : World :=
  (emit (EvSleep ms) w) {{ clock ::= N.add ms }}.

(** The scripts are read in order; once one is exhausted the link is dead:
    connections fail and commands time out. *)
Definition pop_connect (w : World) : option string * World :=
  match ftp_connects w with
  | [] => (Some "timed out", w)
  | o :: rest => (o, w {{ ftp_connects := rest }})
  end.

Definition pop_noop (w : World) : option fault * World :=
  match ftp_noops w with
  | [] => (Some (FTimeout "timed out"), w)
  | o :: rest => (o, w {{ ftp_noops := rest }})
  end.

Definition pop_retr (w : World) : retr_outcome * World :=
  match ftp_retrs w with
  | [] => (RetrFault (FTimeout "timed out"), w)
  | o :: rest => (o, w {{ ftp_retrs := rest }})
  end.

Definition str_of_nat (n : nat) : string :=
  NilZero.string_of_uint (Nat.to_uint n).

(** ** [connect_ftp] *)

Definition connect_ftp (w : World) : (bool * string) * World :=
  (* tear down an existing session, swallowing errors *)
  let w := if ftp w then (emit EvFtpClose (emit EvFtpQuit w)) {{ ftp := false }}
           else w in
  let w := emit EvFtpConnect w in
  let (o, w) := pop_connect w in
  match o with
  | None =>
      let w := w {{ ftp := true }}
                 {{ last_reconnect_time := clock w }}
                 {{ ftp_session_start_time := clock w }} in
      ((true, "FTP connection established"), w)
  | Some e =>
      (* the fresh ftplib.FTP object is closed and dropped *)
      let w := (emit EvFtpClose w) {{ ftp := false }} in
      ((false, "FTP connection error: " ++ e), w)
  end.

(** ** [check_ftp_health] *)

Definition check_ftp_health (w : World) : bool * World :=
  if negb (ftp w) then (false, w)
  else
    let w := emit EvFtpNoop w in
    let (o, w) := pop_noop w in
    match o with
    | None => (true, w)
    | Some _ => (false, w)
    end.

(** ** [get_image] *)

Definition backoff_ms (attempt : nat) : N := (500 * 2 ^ N.of_nat attempt)%N.

Section GetImage.
Variable cfg : Config.
Variable retries : nat.

(** The [except] branches for a failed attempt: [socket.timeout]/[EOFError]
    and any other [Exception]; [continue] is the recursive call [k]. *)
Definition on_fault (attempt : nat) (f : fault)
    (k : World -> acq_result * World) (w : World) : acq_result * World :=
  match f with
  | FTimeout e | FEOF e =>
      let w := w {{ timeout_count ::= S }} in
      if Nat.ltb attempt retries then
        let '((ok, msg), w) := connect_ftp w in
        if negb ok then ((false, None, msg), w)
        else k (sleep (backoff_ms attempt) w)
      else ((false, None,
             "FTP timeout after " ++ str_of_nat (retries + 1) ++ " attempts: " ++ e), w)
  | FOther e =>
      if Nat.ltb attempt retries then
        let '((ok, msg), w) := connect_ftp w in
        if negb ok then ((false, None, msg), w)
        else k (sleep (backoff_ms attempt) w)
      else ((false, None,
             "FTP attempt " ++ str_of_nat (attempt + 1) ++ ": Error: " ++ e), w)
  end.

(** [for attempt in range(retries + 1)], from [attempt] on, with [n]
    iterations left. *)
Fixpoint get_image_loop (n attempt : nat) (w : World) : acq_result * World :=
  match n with
  | O => ((false, None,
           "FTP retrieval failed after " ++ str_of_nat (retries + 1) ++ " attempts"), w)
  | S n' =>
      let w := emit (EvFtpRetr (image_filename cfg)) w in
      let (o, w) := pop_retr w in
      match o with
      | RetrData None =>
          if Nat.ltb attempt retries then
            get_image_loop n' (S attempt) (sleep (backoff_ms attempt) w)
          else ((false, None,
                 "FTP attempt " ++ str_of_nat (attempt + 1) ++ ": Failed to decode image"), w)
      | RetrData (Some img) =>
          let w := emit EvFtpNoop w in
          let (o', w) := pop_noop w in
          match o' with
          | None =>
              let w := w {{ timeout_count := 0 }} in
              ((true, Some img,
                "Image retrieved (" ++ str_of_nat (fst img) ++ "x"
                  ++ str_of_nat (snd img) ++ ")"), w)
          | Some f => on_fault attempt f (get_image_loop n' (S attempt)) w
          end
      | RetrFault f => on_fault attempt f (get_image_loop n' (S attempt)) w
      end
  end.

Definition get_image (w : World) : acq_result * World :=
  if negb (ftp w) then
    let '((ok, msg), w) := connect_ftp w in
    if negb ok then ((false, None, msg), w)
    else get_image_loop (retries + 1) 0 w
  else get_image_loop (retries + 1) 0 w.

End GetImage.

Definition cfg0 : Config := mkConfig "image.bmp" 100 "17:00" 17 0.

Definition w0 : World :=
  mkWorld true true false false false false 0 0 0 0 0 [] 0 [] [] [] [] [] [].

(** ** Python string operations on ASCII text *)

(** [str.isspace] on ASCII: \t \n \v \f \r, the separators 0x1c-0x1f, and ' '. *)
Definition is_space (c : ascii) : bool :=
  let n := nat_of_ascii c in
  ((Nat.leb 9 n) && (Nat.leb n 13)) || ((Nat.leb 28 n) && (Nat.leb n 32)).

Definition is_lower (c : ascii) : bool :=
  let n := nat_of_ascii c in (Nat.leb 97 n) && (Nat.leb n 122).

Definition is_alpha (c : ascii) : bool :=
  let n := nat_of_ascii c in
  ((Nat.leb 65 n) && (Nat.leb n 90)) || ((Nat.leb 97 n) && (Nat.leb n 122)).

Definition is_digit (c : ascii) : bool :=
  let n := nat_of_ascii c in (Nat.leb 48 n) && (Nat.leb n 57).

Definition to_upper (c : ascii) : ascii :=
  if is_lower c then ascii_of_nat (nat_of_ascii c - 32) else c.

Fixpoint lstrip (l : list ascii) : list ascii :=
  match l with
  | [] => []
  | c :: l' => if is_space c then lstrip l' else l
  end.

Definition rstrip (l : list ascii) : list ascii := rev (lstrip (rev l)).

(** [s.strip()], [s.upper()] *)
Definition py_strip (l : list ascii) : list ascii := rstrip (lstrip l).
Definition py_upper (l : list ascii) : list ascii := map to_upper l.

(** [s.split()]: maximal runs of non-whitespace characters; [cur] is the
    run being read. *)
Fixpoint py_split_go (l cur : list ascii) : list (list ascii) :=
  match l with
  | [] => match cur with [] => [] | _ => [cur] end
  | c :: l' =>
      if is_space c then
        match cur with
        | [] => py_split_go l' []
        | _ => cur :: py_split_go l' []
        end
      else py_split_go l' (cur ++ [c])
  end.

Definition py_split (l : list ascii) : list (list ascii) := py_split_go l [].

(** [s.isalpha()], [s.isdigit()]: false on the empty string. *)
Definition py_isalpha (l : list ascii) : bool :=
  match l with [] => false | _ => forallb is_alpha l end.
Definition py_isdigit (l : list ascii) : bool :=
  match l with [] => false | _ => forallb is_digit l end.

(** [" " in s] *)
Definition has_space (l : list ascii) : bool :=
  existsb (fun c => Ascii.eqb c " "%char) l.

Definition lstr (l : list ascii) : string := string_of_list_ascii l.

(** The text of a line read from the Telnet link: [.decode("ascii").strip()]. *)
Definition strip_line (s : string) : string :=
  lstr (py_strip (list_ascii_of_string s)).

(** ["\n".join(lines)] *)
Fixpoint join_lines (ls : list string) : string :=
  match ls with
  | [] => ""
  | [l] => l
  | l :: rest => l ++ String "010"%char "" ++ join_lines rest
  end.

Definition crlf : string := String "013"%char (String "010"%char "").

(** ** The Telnet link *)

(** Python's outcome of a call: a returned value or an uncaught exception. *)
Inductive outcome (A : Type) :=
| Return (a : A)
| Raise (exc : string).
Arguments Return {A} a.
Arguments Raise {A} exc.

Definition eof_text : string := "telnet connection closed".

(** [tn.read_until(b"\r\n", timeout)]: the next line, or [b""] once the
    timeout expires with nothing received, or [EOFError] on a closed link. *)
Definition tel_read_until (w : World) : outcome string * World :=
  let w := emit EvTelRead w in
  match tel_in w with
  | [] => (Return "", w)
  | TLine s :: rest => (Return (strip_line s), w {{ tel_in := rest }})
  | TEOF :: _ => (Raise eof_text, w)
  end.

Fixpoint take_lines (l : list tel_item) : list tel_item * list tel_item :=
  match l with
  | TLine s :: rest => let (a, b) := take_lines rest in (TLine s :: a, b)
  | _ => ([], l)
  end.

(** [tn.read_very_eager()]: everything already received is discarded;
    [EOFError] when the link is closed and nothing is buffered. *)
Definition tel_drain (w : World) : outcome unit * World :=
  let w := emit EvTelDrain w in
  match take_lines (tel_in w) with
  | ([], TEOF :: _) => (Raise eof_text, w)
  | (_, rest) => (Return tt, w {{ tel_in := rest }})
  end.

(** [tn.write(data)]: the device answers with its next scripted reply
    (nothing once the script is exhausted). *)
Definition tel_write (data : string) (w : World) : World :=
  let w := emit (EvTelWrite data) w in
  match tel_replies w with
  | [] => w
  | r :: rest => w {{ tel_in ::= fun l => app l r }} {{ tel_replies := rest }}
  end.

(** ** [send_native_command] *)

(** Lines 225-232: normalisation and the syntax checks. *)
Definition normalize (command : string) : list ascii :=
  py_upper (py_strip (list_ascii_of_string command)).

(** [cmd_base = command.split()[0] if " " in command else command]; the
    indexing raises [IndexError] on an empty split. *)
Definition cmd_base (command : list ascii) : outcome (list ascii) :=
  if has_space command then
    match py_split command with
    | t :: _ => Return t
    | [] => Raise "IndexError: list index out of range"
    end
  else Return command.

Definition validate (command : list ascii) : outcome (option string) :=
  match cmd_base command with
  | Raise e => Raise e
  | Return base =>
      if (match command with [] => true | _ => false end) || (Nat.ltb (length base) 2) then
        Return (Some ("Error: Invalid command '" ++ lstr command ++ "' (minimum 2 characters)"))
      else if String.eqb (lstr base) "GV" &&
              ((Nat.ltb (length command) 5) || negb (py_isalpha (firstn 1 (skipn 2 command))) ||
               negb (py_isdigit (skipn 3 command)) || negb (Nat.eqb (length (skipn 3 command)) 3))
      then Return (Some ("Error: Invalid GV command '" ++ lstr command
                          ++ "' (expected GV[Column][Row], e.g., GVA005)"))
      else Return None
  end.

(** Up to five more lines after the status, stopping at the first empty line
    or the first exception. *)
Fixpoint read_more (n : nat) (w : World) : list string * World :=
  match n with
  | O => ([], w)
  | S n' =>
      match tel_read_until w with
      | (Raise _, w) => ([], w)
      | (Return "", w) => ([], w)
      | (Return line, w) => let (ls, w) := read_more n' w in (line :: ls, w)
      end
  end.

(** Lines 234-258: the [try] block. *)
Definition exchange (command : list ascii) (w : World) : (bool * string) * World :=
  let c := lstr command in
  let fail e w := ((false, "Error: Command '" ++ c ++ "' failed: " ++ e), w) in
  match tel_drain w with
  | (Raise e, w) => fail e w
  | (Return _, w) =>
      let w := tel_write (c ++ crlf) w in
      match tel_read_until w with
      | (Raise e, w) => fail e w
      | (Return status, w) =>
          let (more, w) := read_more 5 w in
          match tel_drain w with
          | (Raise e, w) => fail e w
          | (Return _, w) =>
              let response := join_lines (status :: more) in
              if String.eqb status "1" then
                ((true, "Command " ++ c ++ ": " ++ response), w)
              else if String.eqb status "0" then
                ((false, "Error: Unrecognized command '" ++ c ++ "'"), w)
              else if String.eqb status "-1" || String.eqb status "-2" then
                ((false, "Error: Command '" ++ c ++ "' failed (Status " ++ status ++ ")"), w)
              else
                ((false, "Error: Command '" ++ c ++ "' returned unknown status '"
                           ++ status ++ "'"), w)
          end
      end
  end.

Definition send_native_command (w : World) (command : string)
    : outcome (bool * string) * World :=
  if negb (tn w) then (Return (false, "Error: Not connected to camera"), w)
  else
    let command := normalize command in
    match validate command with
    | Raise e => (Raise e, w)
    | Return (Some msg) => (Return (false, msg), w)
    | Return None => let (r, w) := exchange command w in (Return r, w)
    end.

(** ** [trigger_image] *)

(** [t in s] for a one-character [t]. *)
Definition contains_char (t : ascii) (s : string) : bool :=
  existsb (Ascii.eqb t) (list_ascii_of_string s).

(** The [try] block of [trigger_image]; the trigger time is in ms. *)
Definition trigger_se8 (w : World) : (bool * option N * string) * World :=
  let start_time := clock w in
  let w := tel_write ("SE8" ++ crlf) w in
  match tel_read_until w with
  | (Raise e, w) => ((false, Some 0%N, "Trigger error: " ++ e), w)
  | (Return response, w) =>
      let trigger_time := (clock w - start_time)%N in
      if contains_char "1" response then ((true, Some trigger_time, "Trigger successful"), w)
      else ((false, Some trigger_time, "Trigger failed"), w)
  end.

Definition trigger_image (w : World) : (bool * option N * string) * World :=
  if negb (tn w) then ((false, None, "Not connected to camera"), w)
  else
    let (healthy, w) := check_ftp_health w in
    if healthy then trigger_se8 w
    else
      let '((ok, msg), w) := connect_ftp w in
      if negb ok then ((false, None, "FTP reconnect failed: " ++ msg), w)
      else trigger_se8 w.

(** Modelled from the spec: [trigger_and_retrieve] (section 4.5, the single-shot
    trigger and fetch of the Camera Session facade), which the source does
    not contain as a function: trigger, and fetch the image only when the
    trigger succeeded. *)
Definition trigger_and_retrieve (cfg : Config) (w : World) : acq_result * World :=
  let '((ok, _, msg), w) := trigger_image w in
  if negb ok then ((false, None, msg), w)
  else get_image cfg 2 w.

(** ** The stop deadline: [_get_next_stop_datetime]

    A naive [datetime] is a count of milliseconds from midnight of day 0, the
    scale of [clock]. *)
Definition ms_per_day : N := 86400000.

Definition get_next_stop_datetime (cfg : Config) (now : N) : N :=
  let today := (now / ms_per_day)%N in
  let stop_dt := (today * ms_per_day + (stop_h cfg * 3600 + stop_m cfg * 60) * 1000)%N in
  if N.leb stop_dt now then (stop_dt + ms_per_day)%N else stop_dt.

(** ** [_stream_loop] *)

Definition put (r : acq_result) (w : World) : World :=
  w {{ image_queue ::= fun q => app q [r] }}.

(** One pass of [while self.streaming:]; [true] means the loop goes on,
    [false] that it has left (condition false or [break]). *)
Definition stream_iteration (cfg : Config) (stop_datetime : N) (w : World)
    : bool * World :=
  if negb (streaming w) then (false, w)
  else if N.leb stop_datetime (clock w) then (false, w)
  else if paused w then (true, sleep 100 w)
  else
    let start_time := clock w in
    let '((success, _, trigger_msg), w) := trigger_image w in
    if negb success then (true, sleep 100 (put (false, None, trigger_msg) w))
    else
      let '((success, img, msg), w) := get_image cfg 2 w in
      let w := put (success, img, msg) w in
      let elapsed := (clock w - last_capture_time w)%N in
      let w := w {{ last_capture_time := clock w }} in
      if success && N.eqb elapsed 0 then
        (* 1000/elapsed raises ZeroDivisionError: the except branch *)
        (true, sleep 100 (put (false, None, "Stream error: float division by zero") w))
      else
        let w := if success then w {{ trigger_count ::= S }} else w in
        let sleep_time := N.max (stream_interval cfg - (clock w - start_time)) 2 in
        (true, sleep sleep_time w).

(** After the loop. *)
Definition stream_loop_exit (cfg : Config) (w : World) : World :=
  if streaming w then
    put (false, None, "Streaming stopped at time " ++ stop_time cfg)
        (w {{ streaming := false }} {{ paused := false }}
           {{ ftp_keep_alive_running := false }})
  else w.

(** At most [fuel] passes of the loop (the loop itself need not end). *)
Fixpoint run_stream_loop (cfg : Config) (stop_datetime : N) (fuel : nat) (w : World)
    : World :=
  match fuel with
  | O => w
  | S fuel' =>
      let (go_on, w) := stream_iteration cfg stop_datetime w in
      if go_on then run_stream_loop cfg stop_datetime fuel' w
      else stream_loop_exit cfg w
  end.

(** [_stream_loop] with its start: counter reset and deadline. *)
Definition stream_loop (cfg : Config) (fuel : nat) (w : World) : World :=
  let w := w {{ trigger_count := 0 }} in
  run_stream_loop cfg (get_next_stop_datetime cfg (clock w)) fuel w.

(** ** [keep_alive]: one pass of [while self.ftp_keep_alive_running:];
    [None] when the loop has ended. *)
Definition keep_alive_iteration (w : World) : option World :=
  if negb (ftp_keep_alive_running w) then None
  else if negb (ftp w) then Some (sleep 5000 w)
  else
    let reconnect_due := N.ltb 600000 (clock w - last_reconnect_time w) in
    let after_noop w :=
      let w := emit EvFtpNoop w in
      match pop_noop w with
      | (None, w) => Some w
      | (Some _, w) =>
          if negb (ftp_keep_alive_running w) then None
          else let '(_, w) := connect_ftp w in Some (sleep 5000 w)
      end in
    if reconnect_due then
      let '((ok, _), w) := connect_ftp w in
      if negb ok then Some (sleep 5000 w) else after_noop w
    else after_noop w.

(** ** Stream control *)

Definition start_live_stream (cfg : Config) (w : World) : (bool * string) * World :=
  if streaming w then ((false, "Streaming already active"), w)
  else if negb (tn w) || negb (ftp w) then ((false, "Not connected to camera"), w)
  else
    let w := w {{ streaming := true }} {{ paused := false }}
               {{ last_capture_time := clock w }}
               {{ ftp_keep_alive_running := true }}
               {{ stream_thread := true }} in
    ((true, "Streaming started, will stop at time " ++ stop_time cfg), w).

Definition pause_streaming (w : World) : (bool * string) * World :=
  if negb (streaming w) then ((false, "Streaming not active"), w)
  else ((true, "Streaming paused"),
        w {{ paused := true }} {{ ftp_keep_alive_running := false }}).

Definition resume_streaming (cfg : Config) (w : World) : (bool * string) * World :=
  if negb (streaming w) then start_live_stream cfg w
  else ((true, "Streaming resumed"),
        w {{ paused := false }} {{ last_capture_time := clock w }}).

(** [stop]: the [try: ... except: pass] around each teardown call means a
    failing [close]/[quit] changes nothing below. *)
Definition stop (w : World) : (bool * string) * World :=
  let w := w {{ streaming := false }} {{ paused := false }}
             {{ ftp_keep_alive_running := false }} in
  let w := if stream_thread w then (emit (EvJoin 2000) w) {{ stream_thread := false }}
           else w in
  let w := if tn w then (emit EvTelClose w) {{ tn := false }} else w in
  let w := if ftp w then
             (emit EvFtpClose (emit EvFtpQuit w))
               {{ ftp := false }} {{ ftp_session_start_time := 0%N }}
           else w in
  ((true, "Camera stopped and disconnected"), w).

(** ** The spec's reading of a malformed command

    Used to state the command-validation property; it follows the spec's
    words: the command is empty, or its leading token (the part before the
    first space, or the whole string) has fewer than 2 characters, or it is a
    [GV] parameter read (leading token beginning with [GV]) that is not of
    the shape [GV<letter><3 digits>], e.g. [GVA05] or [GVAB005].  It is
    applied to the command as normalised by the source ([strip().upper()]). *)
Fixpoint before_space (l : list ascii) : list ascii :=
  match l with
  | [] => []
  | c :: l' => if Ascii.eqb c " "%char then [] else c :: before_space l'
  end.

Definition gv_shape (l : list ascii) : bool :=
  Nat.eqb (length l) 6 && String.eqb (lstr (firstn 2 l)) "GV" &&
  py_isalpha (firstn 1 (skipn 2 l)) && py_isdigit (skipn 3 l).

Definition claim_malformed (l : list ascii) : bool :=
  match l with [] => true | _ => false end ||
  Nat.ltb (length (before_space l)) 2 ||
  (String.prefix "GV" (lstr (before_space l)) && negb (gv_shape l)).

(** The first whitespace-delimited run of a string. *)
Fixpoint take_nonspace (l : list ascii) : list ascii :=
  match l with
  | [] => []
  | c :: l' => if is_space c then [] else c :: take_nonspace l'
  end.

(** ** The spec's reading of a command exchange

    One status line, then up to 5 more lines, stopping at the first empty
    one. *)
Fixpoint first_lines (n : nat) (ls : list string) : list string :=
  match n, ls with
  | O, _ | _, [] => []
  | S n', l :: rest => if String.eqb l "" then [] else l :: first_lines n' rest
  end.

(** The outcome the spec gives to status [status] for command [c] with
    response text [response]. *)
Definition status_outcome (c status response : string) : bool * string :=
  if String.eqb status "1" then (true, "Command " ++ c ++ ": " ++ response)
  else if String.eqb status "0" then (false, "Error: Unrecognized command '" ++ c ++ "'")
  else if String.eqb status "-1" || String.eqb status "-2" then
    (false, "Error: Command '" ++ c ++ "' failed (Status " ++ status ++ ")")
  else (false, "Error: Command '" ++ c ++ "' returned unknown status '" ++ status ++ "'").

(** ** [__init__]: the settings check and [stop_time] parsing *)

(** A value of the [settings] dict: a string, or anything else (an [int] or a
    [float]); the dict itself is an association list, first binding wins. *)
Inductive setting :=
| SStr (s : string)
| SOther.

Definition required_keys : list string :=
  ["ip"; "telnet_port"; "username"; "password"; "image_filename"; "timeout";
   "stream_interval"; "stop_time"].

(** [key in settings] *)
Definition key_in (k : string) (settings : list (string * setting)) : bool :=
  existsb (fun kv => String.eqb (fst kv) k) settings.

Definition lookup_setting (k : string) (settings : list (string * setting))
    : option setting :=
  match find (fun kv => String.eqb (fst kv) k) settings with
  | Some (_, v) => Some v
  | None => None
  end.

(** [missing_keys = [key for key in required_keys if key not in settings]] *)
Definition missing_keys (settings : list (string * setting)) : list string :=
  filter (fun k => negb (key_in k settings)) required_keys.

(** [repr] of a list of the (quote-free) key names: ['ip', 'timeout'] *)
Fixpoint join_comma (ls : list string) : string :=
  match ls with
  | [] => ""
  | [l] => "'" ++ l ++ "'"
  | l :: rest => "'" ++ l ++ "', " ++ join_comma rest
  end.

Definition repr_keys (ls : list string) : string := "[" ++ join_comma ls ++ "]".

(** The value of an ASCII digit. *)
Definition digit_val (c : ascii) : N := N.of_nat (nat_of_ascii c - 48).

Definition in_range (lo hi : ascii) (c : ascii) : bool :=
  Nat.leb (nat_of_ascii lo) (nat_of_ascii c) && Nat.leb (nat_of_ascii c) (nat_of_ascii hi).

(** The matches of [(?P<H>2[0-3]|[0-1]\d|\d)] at the start of [l], in the
    order the regex engine tries its alternatives: value and rest. *)
Definition match_H (l : list ascii) : list (N * list ascii) :=
  let alt1 := match l with
              | c1 :: c2 :: rest =>
                  if Ascii.eqb c1 "2" && in_range "0" "3" c2
                  then [(20 + digit_val c2, rest)%N] else []
              | _ => [] end in
  let alt2 := match l with
              | c1 :: c2 :: rest =>
                  if in_range "0" "1" c1 && is_digit c2
                  then [(10 * digit_val c1 + digit_val c2, rest)%N] else []
              | _ => [] end in
  let alt3 := match l with
              | c1 :: rest => if is_digit c1 then [(digit_val c1, rest)] else []
              | _ => [] end in
  alt1 ++ alt2 ++ alt3.

(** The matches of [(?P<M>[0-5]\d|\d)]. *)
Definition match_M (l : list ascii) : list (N * list ascii) :=
  let alt1 := match l with
              | c1 :: c2 :: rest =>
                  if in_range "0" "5" c1 && is_digit c2
                  then [(10 * digit_val c1 + digit_val c2, rest)%N] else []
              | _ => [] end in
  let alt2 := match l with
              | c1 :: rest => if is_digit c1 then [(digit_val c1, rest)] else []
              | _ => [] end in
  alt1 ++ alt2.

(** [re.match] of [H:M]: the first alternative of [H] followed by [:] and
    a match of [M]; [M] ends the pattern, so its first match is taken. *)
Fixpoint match_HM (hs : list (N * list ascii)) : option (N * N * list ascii) :=
  match hs with
  | [] => None
  | (h, rest) :: hs' =>
      match rest with
      | c :: rest' =>
          if Ascii.eqb c ":" then
            match match_M rest' with
            | (m, rest'') :: _ => Some (h, m, rest'')
            | [] => match_HM hs'
            end
          else match_HM hs'
      | [] => match_HM hs'
      end
  end.

(** [datetime.strptime(s, "%H:%M").time()] on ASCII text: [None] is the
    [ValueError] (no match, or unconverted data remains). *)
Definition strptime_HM (s : string) : option (N * N) :=
  let l := list_ascii_of_string s in
  match match_HM (match_H l) with
  | Some (h, m, []) => Some (h, m)
  | _ => None
  end.

(** Lines 21-37, up to [stop_time_obj]: the [ValueError]s raised, or the
    parsed stop time.  A [stop_time] that is not a string makes [strptime]
    raise [TypeError], which is not caught. *)
Definition init_settings (settings : list (string * setting)) : outcome (N * N) :=
  match missing_keys settings with
  | (_ :: _) as ks => Raise ("ValueError: Missing required settings: " ++ repr_keys ks)
  | [] =>
      match lookup_setting "stop_time" settings with
      | Some (SStr s) =>
          match strptime_HM s with
          | Some hm => Return hm
          | None => Raise ("ValueError: Invalid stop_time format: " ++ s
                           ++ ". Expected 'HH:MM' (24-hour)")
          end
      | _ => Raise "TypeError: strptime() argument 1 must be str"
      end
  end.

(** Two-digit zero-padded rendering of [n < 100], as in [04:20]. *)
Definition digit_char (d : N) : ascii := ascii_of_nat (48 + N.to_nat d).
Definition pad2 (n : N) : string :=
  String (digit_char (n / 10)) (String (digit_char (n mod 10)) "").

(** ** [connect] *)

(** [needle in haystack] for strings. *)
Fixpoint str_contains (needle hay : string) : bool :=
  match hay with
  | EmptyString => String.prefix needle hay
  | String _ hay' => String.prefix needle hay || str_contains needle hay'
  end.

Definition close_tn (w : World) : World := (emit EvTelClose w) {{ tn := false }}.

(** The [except Exception as e] branch of [connect]. *)
Definition connect_error (e : string) (w : World) : (bool * string) * World :=
  let w := if tn w then close_tn w else w in
  let w := if ftp w then (emit EvFtpClose w) {{ ftp := false }} else w in
  ((false, "Connection error: " ++ e), w).

(** How the GI verification loop ends: [break], a [return], or an
    exception. *)
Inductive gi_result :=
| GIOk (w : World)
| GIFail (msg : string) (w : World)
| GIRaise (e : string) (w : World).

Definition gi_retries : nat := 2.

(** [for attempt in range(retries)] from [attempt] on, [n] iterations left. *)
Fixpoint gi_loop (n attempt : nat) (w : World) : gi_result :=
  match n with
  | O => GIOk w
  | S n' =>
      let w := tel_write ("GI" ++ crlf) w in
      (* the end of the loop body, reached when [gi_response != "1"] or the
         serial line is invalid on a non-final attempt *)
      let invalid_gi w :=
        if Nat.ltb attempt (gi_retries - 1) then gi_loop n' (S attempt) (sleep 300 w)
        else GIFail ("GI verification failed after " ++ str_of_nat gi_retries
                     ++ " attempts") (close_tn w) in
      match tel_read_until w with
      | (Raise e, w) => GIRaise e w
      | (Return gi_response, w) =>
          if String.eqb gi_response "1" then
            match tel_read_until w with
            | (Raise e, w) => GIRaise e w
            | (Return serial_line, w) =>
                if String.prefix "Serial Number:" serial_line &&
                   Nat.ltb 2 (length (py_split (list_ascii_of_string serial_line)))
                then
                  match tel_read_until w with
                  | (Raise e, w) => GIRaise e w
                  | (Return _, w) => GIOk w
                  end
                else if Nat.ltb attempt (gi_retries - 1) then invalid_gi (sleep 300 w)
                else GIFail "Invalid serial number" (close_tn w)
            end
          else invalid_gi w
      end
  end.

(** [connect]: [tel_open] is the outcome of [telnetlib.Telnet(...)] ([Some e]
    when it raises [e]).  Each [read_until(marker)] is answered by the next
    item the device sent, read as the text up to [marker]. *)
Definition connect (username password : string) (tel_open : option string)
    (w : World) : (bool * string) * World :=
  match tel_open with
  | Some e => connect_error e w
  | None =>
      let w := w {{ tn := true }} in
      match tel_read_until w with
      | (Raise e, w) => connect_error e w
      | (Return welcome, w) =>
          if negb (str_contains "In-Sight" welcome) then
            ((false, "Invalid welcome message"), close_tn w)
          else
            match tel_read_until w with
            | (Raise e, w) => connect_error e w
            | (Return _, w) =>
                let w := tel_write (username ++ crlf) w in
                let w := sleep 100 w in
                match tel_read_until w with
                | (Raise e, w) => connect_error e w
                | (Return _, w) =>
                    let w := tel_write (password ++ crlf) w in
                    match tel_read_until w with
                    | (Raise e, w) => connect_error e w
                    | (Return response, w) =>
                        if negb (str_contains "User Logged In" response) then
                          ((false, "Telnet login failed"), close_tn w)
                        else
                          match tel_drain w with
                          | (Raise e, w) => connect_error e w
                          | (Return _, w) =>
                              match gi_loop gi_retries 0 w with
                              | GIRaise e w => connect_error e w
                              | GIFail msg w => ((false, msg), w)
                              | GIOk w =>
                                  let '((ok, msg), w) := connect_ftp w in
                                  if negb ok then
                                    ((false, msg), if tn w then close_tn w else w)
                                  else ((true, "Connected to camera"), w)
                              end
                          end
                    end
                end
            end
      end
  end.

(** ** [get_image_from_queue] *)

Definition get_image_from_queue (w : World) : acq_result * World :=
  match image_queue w with
  | [] => ((false, None, "No image available"), w)
  | r :: rest => (r, w {{ image_queue := rest }})
  end.

(** [n] successive calls. *)
Fixpoint get_images_from_queue (n : nat) (w : World) : list acq_result * World :=
  match n with
  | O => ([], w)
  | S n' =>
      let (r, w) := get_image_from_queue w in
      let (rs, w) := get_images_from_queue n' w in
      (r :: rs, w)
  end.

(** ** [keep_alive]: at most [fuel] passes of its loop. *)
Fixpoint run_keep_alive (fuel : nat) (w : World) : World :=
  match fuel with
  | O => w
  | S fuel' =>
      match keep_alive_iteration w with
      | None => w
      | Some w' => run_keep_alive fuel' w'
      end
  end.

(** The controller attributes the FTP and Telnet operations leave alone:
    everything but [ftp], [timeout_count] and the FTP session times. *)
Definition ctl_eq (w w' : World) : Prop :=
  tn w' = tn w /\ streaming w' = streaming w /\ paused w' = paused w /\
  ftp_keep_alive_running w' = ftp_keep_alive_running w /\
  stream_thread w' = stream_thread w /\ trigger_count w' = trigger_count w /\
  last_capture_time w' = last_capture_time w /\ image_queue w' = image_queue w.

(** Telnet events. *)
Definition is_tel_event (ev : event) : bool :=
  match ev with
  | EvTelDrain | EvTelWrite _ | EvTelRead | EvTelClose => true
  | _ => false
  end.

(** [w'] follows [w] by Telnet input and output only: the controller's
    attributes, the FTP side and the clock are as they were, and every new
    event is a Telnet one. *)
Definition tel_only (w w' : World) : Prop :=
  ctl_eq w w' /\ ftp w' = ftp w /\ clock w' = clock w /\
  ftp_connects w' = ftp_connects w /\ ftp_noops w' = ftp_noops w /\
  ftp_retrs w' = ftp_retrs w /\
  exists new, trace w' = app (trace w) new /\ forallb is_tel_event new = true.

Local Close Scope string_scope.

(** ** Views of a trace *)

Definition is_retr_or_sleep (ev : event) : bool :=
  match ev with
  | EvFtpRetr _ | EvSleep _ => true
  | _ => false
  end.

Definition is_retr_connect_or_sleep (ev : event) : bool :=
  match ev with
  | EvFtpRetr _ | EvSleep _ | EvFtpConnect => true
  | _ => false
  end.

Definition is_retr (ev : event) : bool :=
  match ev with
  | EvFtpRetr _ => true
  | _ => false
  end.

Definition is_tel_write (ev : event) : bool :=
  match ev with
  | EvTelWrite _ => true
  | _ => false
  end.

(** The events following the first [RETR]: what happens between and after
    the fetch attempts. *)
Fixpoint after_first_retr (l : list event) : list event :=
  match l with
  | [] => []
  | EvFtpRetr _ :: rest => rest
  | _ :: rest => after_first_retr rest
  end.

(** [m] fetch attempts from attempt [k] on, with the backoff sleep
    [0.5 * 2 ** attempt] between consecutive attempts and none after the last. *)
Fixpoint backoff_schedule (name : string) (k m : nat) : list event :=
  match m with
  | O => []
  | 1 => [EvFtpRetr name]
  | S m' => EvFtpRetr name :: EvSleep (backoff_ms k) :: backoff_schedule name (S k) m'
  end.

(** A text is empty or starts with a non-whitespace character. *)
Definition starts_nonspace (l : list ascii) : Prop :=
  l = [] \/ exists c l', l = c :: l' /\ is_space c = false.

(** ** Definitions for the further properties *)

(** A connected controller with a running stream whose next trigger and
    retrieval succeed. *)
Definition w_streaming_ok : World :=
  snd (start_live_stream cfg0
    (w0 {{ tel_replies := [[TLine "1"%string]] }}
        {{ ftp_noops := [None; None] }}
        {{ ftp_retrs := [RetrData (Some (640, 480))] }}
        {{ clock := 5%N }})).

(** A step that keeps both sessions and whose Telnet writes are [ws]. *)
Definition cframe (w w' : World) (ws : list event) : Prop :=
  ftp w' = ftp w /\ tn w' = tn w /\
  exists new, trace w' = trace w ++ new /\ filter is_tel_write new = ws.

(** The world a GI verification loop ends in. *)
Definition gi_world (r : gi_result) : World :=
  match r with GIOk w | GIFail _ w | GIRaise _ w => w end.

(** The GI command written by [connect]. *)
Definition GIw : event := EvTelWrite ("GI" ++ crlf)%string.

(** The Telnet writes of a complete [connect], in order. *)
Definition connect_writes (username password : string) : list event :=
  [EvTelWrite (username ++ crlf)%string; EvTelWrite (password ++ crlf)%string; GIw; GIw].

(** What every run of [connect] ends in: its outcome, the sessions it leaves,
    and its Telnet writes (a prefix of [connect_writes]). *)
Definition connect_post (username password : string) (w : World)
    (r : (bool * string) * World) : Prop :=
  let '((ok, msg), w') := r in
  ((ok = true /\ msg = "Connected to camera"%string /\ tn w' = true /\ ftp w' = true) \/
   (ok = false /\ tn w' = false /\
    ((exists e, msg = ("Connection error: " ++ e)%string /\ ftp w' = false) \/
     (exists e, msg = ("FTP connection error: " ++ e)%string /\ ftp w' = false) \/
     ((msg = "Invalid welcome message"%string \/ msg = "Telnet login failed"%string \/
       msg = "Invalid serial number"%string \/
       msg = "GI verification failed after 2 attempts"%string) /\ ftp w' = ftp w)))) /\
  exists new k, trace w' = trace w ++ new /\
    filter is_tel_write new = firstn k (connect_writes username password) /\
    (ok = true -> 3 <= k) /\ (msg = "Invalid welcome message"%string -> k = 0).

(** [strptime] parses the zero-padded rendering of [h:m] back to [(h, m)]. *)
Definition strptime_pad2_ok (h m : N) : bool :=
  match strptime_HM (pad2 h ++ ":" ++ pad2 m)%string with
  | Some (h', m') => N.eqb h' h && N.eqb m' m
  | None => false
  end.

(** A settings dict with every required key, shaped like [CAMERA_SETTINGS]. *)
Definition settings0 : list (string * setting) :=
  [("ip", SStr "192.168.0.10"); ("telnet_port", SOther); ("username", SStr "admin");
   ("password", SStr "secret"); ("image_filename", SStr "image.bmp"); ("timeout", SOther);
   ("stream_interval", SOther); ("stop_time", SStr "17:30")]%string.

(** An event [keep_alive] may cause: no Telnet I/O, and sleeps of 5 s only. *)
Definition ka_event (ev : event) : bool :=
  negb (is_tel_event ev) && match ev with EvSleep ms => N.eqb ms 5000 | _ => true end.

(** A step of [keep_alive]: controller attributes kept, only [ka_event]s. *)
Definition kframe (w w' : World) : Prop :=
  ctl_eq w w' /\ exists new, trace w' = trace w ++ new /\ forallb ka_event new = true.

(** The result of [get_image_from_queue] on an empty queue. *)
Definition no_image : acq_result := (false, None, "No image available"%string).

(** [main]'s connection loop (main.py, lines 20-37): up to [attempts] calls of
    [connect], sleeping 1 s after each failed one; [opens] gives the outcome of
    each [telnetlib.Telnet(...)].  [connect] catches every exception, so the
    loop's [except] branch is not reached. *)
Fixpoint main_connect (username password : string) (attempts : nat)
    (opens : list (option string)) (w : World) : bool * World :=
  match attempts with
  | O => (false, w)
  | S k =>
      let '((ok, _), w) := connect username password (hd None opens) w in
      if ok then (true, w)
      else main_connect username password k (tl opens) (sleep 1000 w)
  end.

(** ** Lemmas on the primitive effects *)

Ltac app_norm := repeat rewrite <- app_assoc; simpl.

Lemma connect_ftp_quiet (w : World) :
  exists new, trace (snd (connect_ftp w)) = trace w ++ new /\
              filter is_retr_or_sleep new = [].
Proof.
  destruct w as [tn0 ftp0 ? ? ? ? ? ? ? ? ? ? ? tr cs ? ? ? ?].
  destruct ftp0, cs as [|[e|] cs]; simpl;
    eexists; (split; [app_norm; reflexivity | reflexivity]).
Qed.

Lemma trace_emit ev w : trace (emit ev w) = trace w ++ [ev].
Proof. destruct w; reflexivity. Qed.

Lemma trace_sleep ms w : trace (sleep ms w) = trace w ++ [EvSleep ms].
Proof. destruct w; reflexivity. Qed.

Lemma trace_pop_retr w o w' : pop_retr w = (o, w') -> trace w' = trace w.
Proof. destruct w as [? ? ? ? ? ? ? ? ? ? ? ? ? ? ? ? [|? ?] ? ?]; intros H; inversion H; reflexivity. Qed.

Lemma trace_pop_noop w o w' : pop_noop w = (o, w') -> trace w' = trace w.
Proof. destruct w as [? ? ? ? ? ? ? ? ? ? ? ? ? ? ? [|? ?] ? ? ?]; intros H; inversion H; reflexivity. Qed.

Lemma trace_timeout_count w f : trace (w {{ timeout_count ::= f }}) = trace w.
Proof. destruct w; reflexivity. Qed.

Lemma trace_timeout_count_set w v : trace (w {{ timeout_count := v }}) = trace w.
Proof. destruct w; reflexivity. Qed.

Lemma on_fault_cases r a f k w :
  (exists new, trace (snd (on_fault r a f k w)) = trace w ++ new /\
               filter is_retr_or_sleep new = []) \/
  (a < r /\ exists w1 new, on_fault r a f k w = k (sleep (backoff_ms a) w1) /\
                           trace w1 = trace w ++ new /\
                           filter is_retr_or_sleep new = []).
Proof.
  assert (Hgen : forall w' res res_fail,
    trace w' = trace w ->
    res = (if Nat.ltb a r then
             let '((ok, msg), w2) := connect_ftp w' in
             if negb ok then ((false, None, msg), w2)
             else k (sleep (backoff_ms a) w2)
           else (res_fail, w')) ->
    (exists new, trace (snd res) = trace w ++ new /\
                 filter is_retr_or_sleep new = []) \/
    (a < r /\ exists w1 new, res = k (sleep (backoff_ms a) w1) /\
                             trace w1 = trace w ++ new /\
                             filter is_retr_or_sleep new = [])).
  { intros w' res res_fail Ht ->.
    destruct (Nat.ltb a r) eqn:Hlt.
    - destruct (connect_ftp_quiet w') as [new [Hn Hf]].
      destruct (connect_ftp w') as [[ok msg] w2]; simpl in Hn.
      destruct ok; simpl.
      + right; split; [apply Nat.ltb_lt; exact Hlt|].
        exists w2, new; rewrite Hn, Ht; auto.
      + left; exists new; rewrite Hn, Ht; auto.
    - left; exists []; simpl; rewrite Ht, app_nil_r; auto. }
  destruct f as [e|e|e]; unfold on_fault;
    (eapply Hgen; [ | reflexivity ]); first [apply trace_timeout_count | reflexivity].
Qed.

Lemma backoff_schedule_step name k m :
  0 < m ->
  backoff_schedule name k (S m) =
  EvFtpRetr name :: EvSleep (backoff_ms k) :: backoff_schedule name (S k) m.
Proof. destruct m; [lia | reflexivity]. Qed.

(** One iteration that failed with fault [f]: [on_fault] either stops with no
    further fetch or sleep, or sleeps [backoff_ms a] and goes on. *)
Ltac fault_step IHn :=
  match goal with
  | |- context [on_fault ?r ?a ?f (get_image_loop ?cfg ?r ?n ?a') ?w] =>
      destruct (on_fault_cases r a f (get_image_loop cfg r n a') w)
        as [[new [Hn1 Hf]] | [Hlt [w5 [new [Heq [Hn1 Hf]]]]]];
      [ idtac
      | rewrite Heq;
        destruct (IHn a' (sleep (backoff_ms a) w5)) as [new' [m' [Hn' [Hm' [Hpos Hf']]]]];
        [ lia | ] ]
  end.

Lemma get_image_loop_schedule cfg r :
  forall n a w, a + n = r + 1 ->
  exists new m,
    trace (snd (get_image_loop cfg r n a w)) = trace w ++ new /\
    m <= n /\ (0 < n -> 0 < m) /\
    filter is_retr_or_sleep new = backoff_schedule (image_filename cfg) a m.
Proof.
  induction n as [|n IHn]; intros a w Hn.
  - exists [], 0; simpl; rewrite app_nil_r; repeat split; auto; lia.
  - cbn [get_image_loop].
    set (name := image_filename cfg).
    destruct (pop_retr (emit (EvFtpRetr name) w)) as [o w2] eqn:Hp.
    pose proof (trace_pop_retr _ _ _ Hp) as Ht2; rewrite trace_emit in Ht2.
    destruct o as [[img|]|f].
    + destruct (pop_noop (emit EvFtpNoop w2)) as [o' w4] eqn:Hq.
      pose proof (trace_pop_noop _ _ _ Hq) as Ht4; rewrite trace_emit, Ht2 in Ht4.
      destruct o' as [f|].
      * fault_step IHn.
        -- exists ([EvFtpRetr name; EvFtpNoop] ++ new), 1.
           rewrite Hn1, Ht4; app_norm; repeat split; try lia; try reflexivity.
           simpl; rewrite Hf; reflexivity.
        -- exists ([EvFtpRetr name; EvFtpNoop] ++ new ++ [EvSleep (backoff_ms a)] ++ new'), (S m').
           rewrite Hn', trace_sleep, Hn1, Ht4; app_norm; repeat split; try lia; try reflexivity.
           destruct m' as [|m'']; [lia|].
           simpl; rewrite filter_app, Hf; simpl; rewrite Hf'; reflexivity.
      * exists [EvFtpRetr name; EvFtpNoop], 1; cbn [snd].
        rewrite trace_timeout_count_set, Ht4; app_norm; repeat split; auto; lia.
    + destruct (Nat.ltb a r) eqn:Hlt.
      * apply Nat.ltb_lt in Hlt.
        destruct (IHn (S a) (sleep (backoff_ms a) w2)) as [new' [m' [Hn' [Hm' [Hpos Hf']]]]];
          [lia|].
        exists ([EvFtpRetr name; EvSleep (backoff_ms a)] ++ new'), (S m').
        rewrite Hn', trace_sleep, Ht2; app_norm; repeat split; try lia; try reflexivity.
        destruct m' as [|m'']; [lia|].
        simpl; rewrite Hf'; reflexivity.
      * exists [EvFtpRetr name], 1; simpl; rewrite Ht2; repeat split; auto; lia.
    + fault_step IHn.
      * exists ([EvFtpRetr name] ++ new), 1.
        rewrite Hn1, Ht2; app_norm; repeat split; try lia; try reflexivity.
        simpl; rewrite Hf; reflexivity.
      * exists ([EvFtpRetr name] ++ new ++ [EvSleep (backoff_ms a)] ++ new'), (S m').
        rewrite Hn', trace_sleep, Hn1, Ht2; app_norm; repeat split; try lia; try reflexivity.
        destruct m' as [|m'']; [lia|].
        simpl; rewrite filter_app, Hf; simpl; rewrite Hf'; reflexivity.
Qed.

Lemma get_image_schedule cfg r w :
  exists new m,
    trace (snd (get_image cfg r w)) = trace w ++ new /\ m <= r + 1 /\
    filter is_retr_or_sleep new = backoff_schedule (image_filename cfg) 0 m.
Proof.
  unfold get_image.
  assert (Hloop : forall w', exists new m,
    trace (snd (get_image_loop cfg r (r + 1) 0 w')) = trace w' ++ new /\ m <= r + 1 /\
    filter is_retr_or_sleep new = backoff_schedule (image_filename cfg) 0 m).
  { intros w'; destruct (get_image_loop_schedule cfg r (r + 1) 0 w') as [new [m [H1 [H2 [_ H3]]]]];
      [lia|]; exists new, m; auto. }
  destruct (negb (ftp w)); [|apply Hloop].
  destruct (connect_ftp_quiet w) as [new0 [Hn0 Hf0]].
  destruct (connect_ftp w) as [[ok msg] w2]; simpl in Hn0.
  destruct ok; simpl.
  - destruct (Hloop w2) as [new [m [H1 [H2 H3]]]].
    exists (new0 ++ new), m; rewrite H1, Hn0, <- app_assoc; repeat split; auto.
    rewrite filter_app, Hf0; exact H3.
  - exists new0, 0; rewrite Hn0; repeat split; auto; lia.
Qed.

(** C1: [get_image(retries=r)] makes at most [r + 1] fetch attempts; the
    fetches and sleeps it performs are exactly [RETR, sleep(0.5 * 2 ** 0),
    RETR, sleep(0.5 * 2 ** 1), ..., RETR] (a sleep of [0.5 * 2 ** k] seconds
    after each failed attempt [k] that is followed by another, none after the
    last).  When three attempts in a row time out with [retries = 2] (the
    reconnects succeeding), the result is the failure "FTP timeout after 3
    attempts: ...", and after the first fetch exactly two reconnects happen:
    one before each retry, none after the final attempt. *)
Theorem get_image_attempts_and_backoff :
  (forall cfg r w, exists new m,
     trace (snd (get_image cfg r w)) = trace w ++ new /\ m <= r + 1 /\
     filter is_retr_or_sleep new = backoff_schedule (image_filename cfg) 0 m) /\
  (forall cfg w e1 e2 e3 rest cs,
     let w' := w {{ ftp_retrs := RetrFault (FTimeout e1) :: RetrFault (FTimeout e2)
                                :: RetrFault (FTimeout e3) :: rest }}
                 {{ ftp_connects := None :: None :: None :: cs }} in
     fst (get_image cfg 2 w') =
       (false, None, ("FTP timeout after 3 attempts: " ++ e3)%string) /\
     exists new,
       trace (snd (get_image cfg 2 w')) = trace w ++ new /\
       filter is_retr_connect_or_sleep (after_first_retr new) =
         [EvFtpConnect; EvSleep 500; EvFtpRetr (image_filename cfg);
          EvFtpConnect; EvSleep 1000; EvFtpRetr (image_filename cfg)]).
Proof.
  split; [exact get_image_schedule|].
  intros cfg w e1 e2 e3 rest cs w'; subst w'.
  destruct w as [tn0 [|] ? ? ? ? ? ? ? ? ? ? ? tr ? ? ? ? ?]; split; try reflexivity;
    eexists; (split; [simpl; app_norm; reflexivity | reflexivity]).
Qed.

(** C10: in [get_image]'s retry loop, when attempt [a] (not the last) fails on
    the transport and the reconnection that follows fails too, the loop
    returns the reconnection's failure "FTP connection error: ..." at once:
    no backoff sleep, and no further fetch, whatever attempts were left. *)
Theorem get_image_reconnect_failure_returns cfg r n a w f rest e cs :
  a < r ->
  let w' := w {{ ftp_retrs := RetrFault f :: rest }}
              {{ ftp_connects := Some e :: cs }} in
  fst (get_image_loop cfg r (S n) a w') =
    (false, None, ("FTP connection error: " ++ e)%string) /\
  exists new,
    trace (snd (get_image_loop cfg r (S n) a w')) = trace w ++ new /\
    filter is_retr_or_sleep new = [EvFtpRetr (image_filename cfg)] /\
    ftp_retrs (snd (get_image_loop cfg r (S n) a w')) = rest.
Proof.
  intros Hlt w'; subst w'.
  apply Nat.ltb_lt in Hlt.
  destruct w as [tn0 [|] ? ? ? ? ? ? ? ? ? ? ? tr ? ? ? ? ?], f;
    cbn [get_image_loop]; unfold on_fault; simpl; rewrite Hlt; simpl;
    (split; [reflexivity | eexists; split; [app_norm; reflexivity | split; reflexivity]]).
Qed.

Lemma get_image_reconnect_failure_returns_witness :
  1 < 2 /\
  fst (get_image_loop cfg0 2 3 1
         (w0 {{ ftp_retrs := [RetrFault (FTimeout "t"%string)] }}
             {{ ftp_connects := [Some "refused"%string] }})) =
    (false, None, "FTP connection error: refused"%string).
Proof.
  split; [lia|].
  exact (proj1 (get_image_reconnect_failure_returns cfg0 2 2 1 w0
                  (FTimeout "t"%string) [] "refused"%string [] ltac:(lia))).
Defined.

(** ** Lemmas on the string operations *)

Lemma lstrip_starts_nonspace l : starts_nonspace (lstrip l).
Proof.
  induction l as [|c l IH]; simpl; [left; reflexivity|].
  destruct (is_space c) eqn:E; [exact IH|].
  right; exists c, l; auto.
Qed.

Lemma lstrip_app_last a x :
  is_space x = false -> exists k, lstrip (a ++ [x]) = k ++ [x].
Proof.
  intros Hx; induction a as [|c a IH]; simpl.
  - rewrite Hx; exists []; reflexivity.
  - destruct (is_space c); [exact IH|].
    exists (c :: a); reflexivity.
Qed.

Lemma py_strip_starts_nonspace l : starts_nonspace (py_strip l).
Proof.
  unfold py_strip, rstrip.
  destruct (lstrip_starts_nonspace l) as [E | [c [l' [E Hc]]]]; rewrite E.
  - left; reflexivity.
  - simpl. destruct (lstrip_app_last (rev l') c Hc) as [k Hk]; rewrite Hk.
    rewrite rev_app_distr; simpl; right; exists c, (rev k); auto.
Qed.

Ltac leb_cases :=
  repeat match goal with
         | |- context [Nat.leb ?a ?b] => destruct (Nat.leb_spec a b)
         end; simpl; try reflexivity; try lia.

Lemma is_space_to_upper c : is_space (to_upper c) = is_space c.
Proof.
  unfold to_upper. destruct (is_lower c) eqn:E; [|reflexivity].
  unfold is_lower in E. apply andb_true_iff in E as [E1 E2].
  apply Nat.leb_le in E1, E2.
  unfold is_space.
  rewrite Ascii.nat_ascii_embedding by lia.
  leb_cases.
Qed.

Lemma normalize_starts_nonspace command : starts_nonspace (normalize command).
Proof.
  unfold normalize, py_upper.
  destruct (py_strip_starts_nonspace (list_ascii_of_string command))
    as [E | [c [l' [E Hc]]]]; rewrite E; [left; reflexivity|].
  right; exists (to_upper c), (map to_upper l'); split; [reflexivity|].
  rewrite is_space_to_upper; exact Hc.
Qed.

Lemma py_split_go_first l cur :
  cur ++ take_nonspace l <> [] ->
  exists rest, py_split_go l cur = (cur ++ take_nonspace l) :: rest.
Proof.
  revert cur; induction l as [|c l IH]; intros cur H; simpl in *.
  - rewrite app_nil_r in *. destruct cur; [congruence|]. exists []; reflexivity.
  - destruct (is_space c).
    + rewrite app_nil_r in *. destruct cur as [|x cur]; [congruence|].
      eexists; reflexivity.
    + replace (cur ++ c :: take_nonspace l) with ((cur ++ [c]) ++ take_nonspace l)
        by (rewrite <- app_assoc; reflexivity).
      apply IH. rewrite <- app_assoc; exact H.
Qed.

Lemma space_is_space : is_space " "%char = true.
Proof. reflexivity. Qed.

Lemma take_nonspace_le l : length (take_nonspace l) <= length (before_space l).
Proof.
  induction l as [|c l IH]; simpl; [lia|].
  destruct (is_space c) eqn:E; simpl; [lia|].
  destruct (Ascii.eqb_spec c " "%char) as [->|]; [discriminate|]. simpl; lia.
Qed.

Lemma before_space_no_space l : has_space l = false -> before_space l = l.
Proof.
  induction l as [|c l IH]; simpl; [reflexivity|].
  intros H; apply orb_false_iff in H as [H1 H2]; rewrite H1, IH; auto.
Qed.

(** The leading token is [GV]: the command is [GV] or starts with [GV ]. *)
Lemma before_space_GV l :
  lstr (before_space l) = "GV"%string ->
  l = ["G"; "V"]%char \/ exists r, l = ("G" :: "V" :: " " :: r)%char.
Proof.
  destruct l as [|a [|b [|c r]]]; simpl; try discriminate;
    destruct (Ascii.eqb_spec a " "%char); try discriminate; simpl;
    try (destruct (Ascii.eqb_spec b " "%char); try discriminate; simpl);
    try (destruct (Ascii.eqb_spec c " "%char)); simpl; intros H;
    try discriminate; injection H; intros; subst; auto.
  right; eexists; reflexivity.
Qed.

Lemma cmd_base_short c :
  starts_nonspace c -> c <> [] ->
  exists base, cmd_base c = Return base /\ length base <= length (before_space c).
Proof.
  intros [-> | [x [l' [-> Hx]]]] Hne; [congruence|].
  unfold cmd_base. destruct (has_space (x :: l')) eqn:Hsp.
  - destruct (py_split_go_first (x :: l') [] ltac:(simpl; rewrite Hx; discriminate))
      as [rest Hr].
    unfold py_split; rewrite Hr.
    eexists; split; [reflexivity|]. apply (take_nonspace_le (x :: l')).
  - rewrite (before_space_no_space _ Hsp). eexists; split; [reflexivity|lia].
Qed.

(** ** Lemmas on the Telnet link *)

Lemma tel_in_emit ev w : tel_in (emit ev w) = tel_in w.
Proof. destruct w; reflexivity. Qed.

Lemma tel_replies_emit ev w : tel_replies (emit ev w) = tel_replies w.
Proof. destruct w; reflexivity. Qed.

Lemma tel_in_set w l : tel_in (w {{ tel_in := l }}) = l.
Proof. destruct w; reflexivity. Qed.

Lemma take_lines_map ls : take_lines (map TLine ls) = (map TLine ls, []).
Proof. induction ls as [|l ls IH]; simpl; [reflexivity|]. rewrite IH; reflexivity. Qed.

Lemma read_more_lines n : forall ls w,
  tel_in w = map TLine ls ->
  exists ls' w', read_more n w = (first_lines n (map strip_line ls), w') /\
                 tel_in w' = map TLine ls'.
Proof.
  induction n as [|n IH]; intros ls w H; [exists ls, w; auto|].
  destruct ls as [|l ls].
  - exists [], (emit EvTelRead w); cbn [read_more].
    unfold tel_read_until; cbv zeta; rewrite tel_in_emit, H; split; [reflexivity|].
    reflexivity.
  - cbn [read_more]; unfold tel_read_until at 1; cbv zeta; rewrite tel_in_emit, H.
    simpl map; cbn [first_lines].
    destruct (String.eqb_spec (strip_line l) "") as [E|E].
    + rewrite E; exists ls, ((emit EvTelRead w) {{ tel_in := map TLine ls }}).
      split; [reflexivity | apply tel_in_set].
    + destruct (IH ls ((emit EvTelRead w) {{ tel_in := map TLine ls }}) (tel_in_set _ _))
        as [ls' [w' [Hr Hw']]].
      exists ls', w'.
      destruct (strip_line l) as [|ch s'] eqn:Es; [congruence|].
      rewrite Hr; auto.
Qed.

(** C3: once a well-formed command has been written on a connected, open link
    (any stale buffered lines are drained first), the status line decides
    the outcome: ["1"] gives success with the text "Command <c>: " followed
    by the response (the status line and up to 5 more lines, stopping at the
    first empty one, joined by newlines); ["0"] the unrecognised-command
    error; ["-1"] or ["-2"] the command-failed error; anything else the
    unknown-status error.  In particular [send_native_command("GVA005")] with
    the device answering "1", "45.2" succeeds with "Command GVA005: 1\n45.2",
    whose second line is "45.2". *)
Theorem send_native_command_status_outcome :
  (forall w command stale s rest more,
     tn w = true -> validate (normalize command) = Return None ->
     tel_in w = map TLine stale -> tel_replies w = map TLine (s :: rest) :: more ->
     fst (send_native_command w command) =
       Return (status_outcome (lstr (normalize command)) (strip_line s)
                 (join_lines (strip_line s :: first_lines 5 (map strip_line rest))))) /\
  (forall w more,
     tn w = true -> tel_in w = [] ->
     tel_replies w = [TLine "1"; TLine "45.2"]%string :: more ->
     fst (send_native_command w "GVA005") =
       Return (true, ("Command GVA005: 1" ++ String "010"%char "45.2")%string)).
Proof.
  split.
  - intros w command stale s rest more Htn Hval Hin Hrep.
    destruct w as [tn0 ? ? ? ? ? ? ? ? ? ? ? ? ? ? ? ? tin trep]; simpl in Htn, Hin, Hrep.
    subst tn0 tin trep.
    unfold send_native_command; cbn -[normalize validate exchange].
    rewrite Hval. unfold exchange, tel_drain at 1; cbv zeta.
    cbn -[read_more tel_drain normalize status_outcome take_lines].
    rewrite take_lines_map.
    destruct stale;
      (cbn -[read_more tel_drain normalize status_outcome];
       match goal with
       | |- context [read_more 5 ?w'] =>
           destruct (read_more_lines 5 rest w' eq_refl) as [ls' [w'' [Hr Hw]]]; rewrite Hr
       end;
       unfold tel_drain; cbv zeta; rewrite tel_in_emit, Hw, take_lines_map;
       destruct ls'; unfold status_outcome; simpl;
       destruct (String.eqb (strip_line s) "1"), (String.eqb (strip_line s) "0"),
         (String.eqb (strip_line s) "-1"), (String.eqb (strip_line s) "-2");
       reflexivity).
  - intros w more Htn Hin Hrep.
    destruct w as [tn0 ? ? ? ? ? ? ? ? ? ? ? ? ? ? ? ? tin trep]; simpl in Htn, Hin, Hrep.
    subst tn0 tin trep; reflexivity.
Qed.

Lemma send_native_command_status_outcome_witness :
  fst (send_native_command (w0 {{ tel_replies := [[TLine "0"%string]] }}) "XY"%string) =
    Return (false, "Error: Unrecognized command 'XY'"%string).
Proof.
  exact (proj1 send_native_command_status_outcome
           (w0 {{ tel_replies := [[TLine "0"%string]] }}) "XY"%string [] "0"%string [] []
           eq_refl eq_refl eq_refl eq_refl).
Defined.

(** ** Lemmas on [trigger_image] *)

Lemma filter_retr_of_quiet l :
  filter is_retr_or_sleep l = [] -> filter is_retr l = [].
Proof.
  induction l as [|ev l IH]; simpl; [reflexivity|].
  destruct ev; simpl; try discriminate; auto.
Qed.

Lemma trigger_image_quiet w :
  exists new, trace (snd (trigger_image w)) = trace w ++ new /\
              filter is_retr_or_sleep new = [].
Proof.
  destruct w as [[|] [|] ? ? ? ? ? ? ? ? ? ? ? tr cs ns ? tin trep];
    unfold trigger_image, trigger_se8, check_ftp_health, connect_ftp; simpl;
    try (eexists; split; [rewrite app_nil_r; reflexivity | reflexivity]);
    destruct ns as [|[f|] ns], cs as [|[e|] cs]; simpl;
    destruct tin as [|[l|] tin], trep as [|r trep]; simpl;
    try destruct r as [|[l'|] r]; simpl;
    repeat match goal with
           | |- context [if contains_char ?a ?b then _ else _] => destruct (contains_char a b)
           end; simpl;
    (eexists; split; [app_norm; reflexivity | reflexivity]).
Qed.

Lemma trace_put r w : trace (put r w) = trace w.
Proof. destruct w; reflexivity. Qed.

(** C4: in a pass of the acquisition loop (streaming, not paused, before the
    deadline) whose trigger fails, the loop publishes the trigger's failure
    result, sleeps 0.1 s and goes on, and no image fetch happens in that
    pass.  A trigger succeeds exactly when the SE8 response contains "1"
    (otherwise the message is "Trigger failed").  In the single-shot path a
    trigger answered by "0" makes the call fail with "Trigger failed" and no
    fetch is made. *)
Theorem stream_iteration_trigger_gates_retrieval :
  (forall cfg dl w ok t msg w1,
     streaming w = true -> paused w = false -> (clock w < dl)%N ->
     trigger_image w = ((ok, t, msg), w1) -> ok = false ->
     stream_iteration cfg dl w = (true, sleep 100 (put (false, None, msg) w1)) /\
     exists new, trace (snd (stream_iteration cfg dl w)) = trace w ++ new /\
                 filter is_retr new = []) /\
  (forall w ns line extra more,
     tn w = true -> ftp w = true -> ftp_noops w = None :: ns -> tel_in w = [] ->
     tel_replies w = (TLine line :: extra) :: more ->
     fst (trigger_image w) =
       if contains_char "1" (strip_line line)
       then (true, Some 0%N, "Trigger successful"%string)
       else (false, Some 0%N, "Trigger failed"%string)) /\
  (forall cfg w ns extra more,
     tn w = true -> ftp w = true -> ftp_noops w = None :: ns -> tel_in w = [] ->
     tel_replies w = (TLine "0" :: extra)%string :: more ->
     fst (trigger_and_retrieve cfg w) = (false, None, "Trigger failed"%string) /\
     exists new, trace (snd (trigger_and_retrieve cfg w)) = trace w ++ new /\
                 filter is_retr new = []).
Proof.
  split; [|split].
  - intros cfg dl w ok t msg w1 Hs Hp Hdl E Hok; subst ok.
    assert (Hq := trigger_image_quiet w); rewrite E in Hq.
    destruct Hq as [new [Hn Hf]]; simpl in Hn.
    assert (Hit : stream_iteration cfg dl w = (true, sleep 100 (put (false, None, msg) w1))).
    { unfold stream_iteration; rewrite Hs, Hp; simpl.
      replace (N.leb dl (clock w)) with false by (symmetry; apply N.leb_gt; exact Hdl).
      rewrite E; reflexivity. }
    split; [exact Hit|].
    exists (new ++ [EvSleep 100]); rewrite Hit; cbn [snd].
    rewrite trace_sleep, trace_put, Hn, <- app_assoc; split; [reflexivity|].
    rewrite filter_app, (filter_retr_of_quiet _ Hf); reflexivity.
  - intros w ns line extra more Htn Hftp Hns Hin Hrep.
    destruct w as [tn0 ftp0 ? ? ? ? ? ? ? ? ? ? ? ? ? ? ? tin trep];
      simpl in Htn, Hftp, Hns, Hin, Hrep; subst.
    unfold trigger_image, check_ftp_health, trigger_se8; simpl.
    destruct (contains_char "1" (strip_line line)); simpl; rewrite N.sub_diag; reflexivity.
  - intros cfg w ns extra more Htn Hftp Hns Hin Hrep.
    destruct w as [tn0 ftp0 ? ? ? ? ? ? ? ? ? ? ? tr ? ? ? tin trep];
      simpl in Htn, Hftp, Hns, Hin, Hrep; subst.
    split; [reflexivity|].
    eexists; split; [simpl; app_norm; reflexivity | reflexivity].
Qed.

Lemma stream_iteration_trigger_gates_retrieval_witness :
  stream_iteration cfg0 1000
    (w0 {{ streaming := true }} {{ ftp_noops := [None] }}
        {{ tel_replies := [[TLine "0"%string]] }}) =
  (true, sleep 100 (put (false, None, "Trigger failed"%string)
                      (snd (trigger_image (w0 {{ streaming := true }} {{ ftp_noops := [None] }}
                                              {{ tel_replies := [[TLine "0"%string]] }}))))).
Proof.
  exact (proj1 (proj1 stream_iteration_trigger_gates_retrieval cfg0 1000%N
     (w0 {{ streaming := true }} {{ ftp_noops := [None] }}
         {{ tel_replies := [[TLine "0"%string]] }})
     false (Some 0%N) "Trigger failed"%string _ eq_refl eq_refl ltac:(reflexivity)
     eq_refl eq_refl)).
Defined.

(** C9: on a connected controller whose FTP health check fails (the NOOP
    raises, or there is no FTP session) and whose reconnect fails with [e],
    [trigger_image] returns "FTP reconnect failed: FTP connection error: e"
    after only Transfer-Channel activity (NOOP when a session exists, its
    teardown, the connection attempt): nothing is written on the Telnet
    link. *)
Theorem trigger_image_ftp_reconnect_failure w f ns e cs :
  tn w = true ->
  let w' := w {{ ftp_noops := Some f :: ns }} {{ ftp_connects := Some e :: cs }} in
  fst (trigger_image w') =
    (false, None, ("FTP reconnect failed: FTP connection error: " ++ e)%string) /\
  exists new,
    trace (snd (trigger_image w')) = trace w ++ new /\
    new = (if ftp w then [EvFtpNoop; EvFtpQuit; EvFtpClose] else [])
            ++ [EvFtpConnect; EvFtpClose] /\
    filter is_tel_write new = [].
Proof.
  intros Htn w'; subst w'.
  destruct w as [tn0 [|] ? ? ? ? ? ? ? ? ? ? ? tr ? ? ? ? ?]; simpl in Htn; subst;
    (split; [reflexivity|]);
    (eexists; split; [simpl; app_norm; reflexivity | split; reflexivity]).
Qed.

Lemma trigger_image_ftp_reconnect_failure_witness :
  fst (trigger_image (w0 {{ ftp_noops := [Some (FTimeout "timed out"%string)] }}
                         {{ ftp_connects := [Some "refused"%string] }})) =
    (false, None, "FTP reconnect failed: FTP connection error: refused"%string).
Proof.
  exact (proj1 (trigger_image_ftp_reconnect_failure w0 (FTimeout "timed out"%string) []
                  "refused"%string [] eq_refl)).
Defined.

(** C5: for a valid [HH:MM] stop time, the deadline computed from the current
    time [now] is not before [now] (indeed after it); it is at the configured
    time of day; and it falls today when that time of day is still ahead of
    [now], on the next day when it has passed or is now. *)
Theorem get_next_stop_datetime_not_before_now cfg now :
  (stop_h cfg < 24)%N -> (stop_m cfg < 60)%N ->
  let tod := ((stop_h cfg * 3600 + stop_m cfg * 60) * 1000)%N in
  let today_stop := (now / ms_per_day * ms_per_day + tod)%N in
  let r := get_next_stop_datetime cfg now in
  (now <= r)%N /\ (now < r)%N /\
  (r mod ms_per_day = tod)%N /\
  (r / ms_per_day = now / ms_per_day + if N.leb today_stop now then 1 else 0)%N.
Proof.
  intros Hh Hm tod today_stop r.
  assert (Htod : (tod < ms_per_day)%N) by (unfold tod, ms_per_day; lia).
  assert (Hdm := N.div_mod now ms_per_day ltac:(unfold ms_per_day; lia)).
  assert (Hmod := N.mod_lt now ms_per_day ltac:(unfold ms_per_day; lia)).
  set (q := (now / ms_per_day)%N) in *.
  set (m := (now mod ms_per_day)%N) in *.
  assert (Hr : r = if N.leb today_stop now then (q * ms_per_day + tod + ms_per_day)%N
                   else (q * ms_per_day + tod)%N) by reflexivity.
  destruct (N.leb_spec today_stop now) as [Hle|Hlt]; unfold today_stop in *.
  - rewrite Hr.
    assert (E1 : (q * ms_per_day + tod + ms_per_day = (q + 1) * ms_per_day + tod)%N) by lia.
    rewrite E1.
    split; [lia|]. split; [lia|]. split.
    + symmetry; apply (N.mod_unique _ _ (q + 1)); lia.
    + symmetry; apply (N.div_unique _ _ _ tod); lia.
  - rewrite Hr. split; [lia|]. split; [lia|]. split.
    + symmetry; apply (N.mod_unique _ _ q); lia.
    + rewrite N.add_0_r. symmetry; apply (N.div_unique _ _ _ tod); lia.
Qed.

Lemma get_next_stop_datetime_not_before_now_witness :
  (0 <= get_next_stop_datetime cfg0 0)%N.
Proof.
  exact (proj1 (get_next_stop_datetime_not_before_now cfg0 0
                  ltac:(vm_compute; reflexivity) ltac:(vm_compute; reflexivity))).
Defined.

(** C6: from an idle, connected controller, [start_live_stream] then
    [pause_streaming] then [resume_streaming] leaves a stream that is running
    and not paused while [ftp_keep_alive_running] stays [false]: the
    keep-alive loop has ended (its next pass is [None]) and [resume_streaming]
    starts no new one, so the supervisor is not active again after resume. *)
Theorem resume_streaming_leaves_keep_alive_stopped cfg w :
  tn w = true -> ftp w = true -> streaming w = false ->
  let w1 := snd (start_live_stream cfg w) in
  let w2 := snd (pause_streaming w1) in
  let w3 := snd (resume_streaming cfg w2) in
  ftp_keep_alive_running w1 = true /\
  keep_alive_iteration w2 = None /\
  fst (resume_streaming cfg w2) = (true, "Streaming resumed"%string) /\
  streaming w3 = true /\ paused w3 = false /\
  ftp_keep_alive_running w3 = false /\
  keep_alive_iteration w3 = None.
Proof.
  destruct w; cbn; intros -> -> ->; cbn.
  repeat split.
Qed.

Lemma resume_streaming_leaves_keep_alive_stopped_witness :
  ftp_keep_alive_running
    (snd (resume_streaming cfg0 (snd (pause_streaming (snd (start_live_stream cfg0 w0))))))
  = false.
Proof.
  exact (proj1 (proj2 (proj2 (proj2 (proj2 (proj2
           (resume_streaming_leaves_keep_alive_stopped cfg0 w0
              eq_refl eq_refl eq_refl))))))).
Defined.

(** C7 counterexample: (a) on a stream already paused, [pause_streaming]
    is accepted again, returning [(true, "Streaming paused")], not rejected;
    (b) a stream paused past its stop deadline leaves the loop, and the loop's
    exit publishes a "Streaming stopped at time ..." result to the queue
    before any resume. *)
Lemma pause_streaming_paused_counterexample :
  let w1 := snd (pause_streaming (snd (start_live_stream cfg0 w0))) in
  fst (pause_streaming w1) = (true, "Streaming paused"%string) /\
  paused w1 = true /\
  image_queue (run_stream_loop cfg0 0 1 w1) =
    [(false, None, "Streaming stopped at time 17:00"%string)].
Proof. vm_compute. repeat split. Qed.

(** C7 (amended): a pass of the acquisition loop that starts while the stream
    is paused does no trigger and no retrieval and publishes nothing: before
    the deadline it only sleeps 100 ms and goes on; at or after the deadline it
    leaves the loop, whose exit publishes only the "Streaming stopped at time"
    result.  [pause_streaming] on a paused stream (whose keep-alive flag is
    off, as pausing leaves it) returns [(true, "Streaming paused")] and leaves
    the state as it was. *)
Theorem stream_iteration_paused_idle cfg stop_dt w :
  streaming w = true -> paused w = true -> ftp_keep_alive_running w = false ->
  (clock w < stop_dt ->
     stream_iteration cfg stop_dt w = (true, sleep 100 w) /\
     image_queue (snd (stream_iteration cfg stop_dt w)) = image_queue w /\
     trace (snd (stream_iteration cfg stop_dt w)) = trace w ++ [EvSleep 100])%N /\
  (stop_dt <= clock w ->
     stream_iteration cfg stop_dt w = (false, w) /\
     image_queue (stream_loop_exit cfg w) =
       image_queue w ++ [(false, None, ("Streaming stopped at time " ++ stop_time cfg)%string)] /\
     trace (stream_loop_exit cfg w) = trace w)%N /\
  pause_streaming w = ((true, "Streaming paused"%string), w).
Proof.
  destruct w; cbn; intros -> -> ->; cbn.
  split; [|split].
  - intros Hlt. destruct (N.leb_spec stop_dt clock0); [lia|]. cbn. auto.
  - intros Hle. destruct (N.leb_spec stop_dt clock0); [|lia]. cbn. auto.
  - reflexivity.
Qed.

Lemma stream_iteration_paused_idle_witness :
  let w := snd (pause_streaming (snd (start_live_stream cfg0 w0))) in
  stream_iteration cfg0 1000 w = (true, sleep 100 w).
Proof.
  exact (proj1 (proj1 (stream_iteration_paused_idle cfg0 1000
           (snd (pause_streaming (snd (start_live_stream cfg0 w0))))
           eq_refl eq_refl eq_refl) ltac:(vm_compute; reflexivity))).
Defined.

(** C8: [stop] returns [(true, "Camera stopped and disconnected")] from any
    state, never raises, clears the loop flags, joins the stream thread with a
    2 s bound when there is one, closes the Telnet session and quits/closes the
    FTP session when present, leaving both absent; a second [stop] returns the
    same result and changes nothing. *)
Theorem stop_idempotent w :
  let r := stop w in
  let w1 := snd r in
  fst r = (true, "Camera stopped and disconnected"%string) /\
  streaming w1 = false /\ paused w1 = false /\
  ftp_keep_alive_running w1 = false /\ stream_thread w1 = false /\
  tn w1 = false /\ ftp w1 = false /\
  trace w1 = trace w ++ (if stream_thread w then [EvJoin 2000] else [])
                     ++ (if tn w then [EvTelClose] else [])
                     ++ (if ftp w then [EvFtpQuit; EvFtpClose] else []) /\
  stop w1 = r.
Proof.
  destruct w as [tn0 ftp0 s0 p0 ka0 th0 ? ? ? ? ? ? ? tr ? ? ? ? ?].
  destruct th0, tn0, ftp0; cbn;
    repeat split; unfold emit; cbn; rewrite <- ?app_assoc, ?app_nil_r; reflexivity.
Qed.

(** * Further properties of the controller *)

(** ** The controller state the FTP and Telnet operations leave alone *)

Lemma ctl_eq_refl w : ctl_eq w w.
Proof. unfold ctl_eq; repeat split. Qed.

Lemma ctl_eq_trans w1 w2 w3 : ctl_eq w1 w2 -> ctl_eq w2 w3 -> ctl_eq w1 w3.
Proof.
  unfold ctl_eq; intros (?&?&?&?&?&?&?&?) (?&?&?&?&?&?&?&?).
  repeat split; congruence.
Qed.

Ltac crush_world :=
  cbn;
  repeat (first
    [ match goal with
      | |- context [match ?x with _ => _ end] => is_var x; destruct x; cbn
      end
    | match goal with
      | |- context [negb ?x] => is_var x; destruct x; cbn
      end
    | match goal with
      | |- context [match ?x with _ => _ end] =>
          lazymatch type of x with bool => destruct x; cbn end
      end ]);
  try (unfold ctl_eq; cbn); repeat split.

Lemma ctl_emit ev w : ctl_eq w (emit ev w).
Proof. destruct w; crush_world. Qed.

Lemma ctl_sleep ms w : ctl_eq w (sleep ms w).
Proof. destruct w; crush_world. Qed.

Lemma ctl_connect_ftp w : ctl_eq w (snd (connect_ftp w)).
Proof. destruct w; unfold connect_ftp, pop_connect; crush_world. Qed.

Lemma ctl_check_ftp_health w : ctl_eq w (snd (check_ftp_health w)).
Proof. destruct w; unfold check_ftp_health, pop_noop; crush_world. Qed.

Lemma ctl_tel_read_until w : ctl_eq w (snd (tel_read_until w)).
Proof. destruct w; unfold tel_read_until; crush_world. Qed.

Lemma ctl_tel_drain w : ctl_eq w (snd (tel_drain w)).
Proof.
  destruct w; unfold tel_drain; cbn.
  destruct (take_lines _) as [[|? ?] [|[?|] ?]]; crush_world.
Qed.

Lemma ctl_tel_write d w : ctl_eq w (tel_write d w).
Proof. destruct w; unfold tel_write; crush_world. Qed.

Lemma ctl_pop_noop w o w' : pop_noop w = (o, w') -> ctl_eq w w'.
Proof. destruct w as [? ? ? ? ? ? ? ? ? ? ? ? ? ? ? [|? ?] ? ? ?]; intros H; inversion H; subst; crush_world. Qed.

Lemma ctl_pop_retr w o w' : pop_retr w = (o, w') -> ctl_eq w w'.
Proof. destruct w as [? ? ? ? ? ? ? ? ? ? ? ? ? ? ? ? [|? ?] ? ?]; intros H; inversion H; subst; crush_world. Qed.

Lemma ctl_timeout_upd w f : ctl_eq w (w {{ timeout_count ::= f }}).
Proof. destruct w; crush_world. Qed.

Lemma ctl_timeout_set w v : ctl_eq w (w {{ timeout_count := v }}).
Proof. destruct w; crush_world. Qed.

(** The fields of a world that a step leaves alone, one lemma each. *)
Lemma ftp_emit ev w : ftp (emit ev w) = ftp w.
Proof. destruct w; reflexivity. Qed.
Lemma ftp_sleep ms w : ftp (sleep ms w) = ftp w.
Proof. destruct w; reflexivity. Qed.
Lemma ftp_timeout_upd w f : ftp (w {{ timeout_count ::= f }}) = ftp w.
Proof. destruct w; reflexivity. Qed.
Lemma ftp_pop_retr w o w' : pop_retr w = (o, w') -> ftp w' = ftp w.
Proof. destruct w as [? ? ? ? ? ? ? ? ? ? ? ? ? ? ? ? [|? ?] ? ?]; intros H; inversion H; reflexivity. Qed.
Lemma ftp_pop_noop w o w' : pop_noop w = (o, w') -> ftp w' = ftp w.
Proof. destruct w as [? ? ? ? ? ? ? ? ? ? ? ? ? ? ? [|? ?] ? ? ?]; intros H; inversion H; reflexivity. Qed.

Lemma clock_emit ev w : clock (emit ev w) = clock w.
Proof. destruct w; reflexivity. Qed.
Lemma clock_sleep ms w : clock (sleep ms w) = (ms + clock w)%N.
Proof. destruct w; reflexivity. Qed.
Lemma clock_timeout_upd w f : clock (w {{ timeout_count ::= f }}) = clock w.
Proof. destruct w; reflexivity. Qed.
Lemma clock_pop_retr w o w' : pop_retr w = (o, w') -> clock w' = clock w.
Proof. destruct w as [? ? ? ? ? ? ? ? ? ? ? ? ? ? ? ? [|? ?] ? ?]; intros H; inversion H; reflexivity. Qed.
Lemma clock_pop_noop w o w' : pop_noop w = (o, w') -> clock w' = clock w.
Proof. destruct w as [? ? ? ? ? ? ? ? ? ? ? ? ? ? ? [|? ?] ? ? ?]; intros H; inversion H; reflexivity. Qed.
Lemma clock_connect_ftp w : clock (snd (connect_ftp w)) = clock w.
Proof. destruct w; unfold connect_ftp, pop_connect; crush_world. Qed.

Lemma connect_ftp_cases w ok msg w' :
  connect_ftp w = ((ok, msg), w') ->
  (ok = true /\ msg = "FTP connection established"%string /\ ftp w' = true) \/
  (ok = false /\ (exists e, msg = ("FTP connection error: " ++ e)%string) /\ ftp w' = false).
Proof.
  destruct w as [? ftp0 ? ? ? ? ? ? ? ? ? ? ? ? cs ? ? ? ?].
  destruct ftp0, cs as [|[e|] cs]; cbn; intros H; inversion H; subst; eauto.
Qed.

Lemma ctl_on_fault r a f k w :
  (forall w', ctl_eq w' (snd (k w'))) -> ctl_eq w (snd (on_fault r a f k w)).
Proof.
  intros Hk.
  assert (Hgen : forall w1 res_fail, ctl_eq w w1 ->
    ctl_eq w (snd (if Nat.ltb a r then
                     let '((ok, msg), w2) := connect_ftp w1 in
                     if negb ok then ((false, None, msg), w2)
                     else k (sleep (backoff_ms a) w2)
                   else (res_fail, w1)))).
  { intros w1 res_fail H1.
    destruct (Nat.ltb a r); [|exact H1].
    pose proof (ctl_connect_ftp w1) as Hc.
    destruct (connect_ftp w1) as [[ok msg] w2]; cbn in Hc.
    destruct ok; cbn.
    - eapply ctl_eq_trans; [eapply ctl_eq_trans; [exact H1 | exact Hc]|].
      eapply ctl_eq_trans; [apply ctl_sleep | apply Hk].
    - eapply ctl_eq_trans; eauto. }
  destruct f; unfold on_fault; apply Hgen;
    first [apply ctl_timeout_upd | apply ctl_eq_refl].
Qed.

Lemma ctl_get_image_loop cfg r n : forall a w, ctl_eq w (snd (get_image_loop cfg r n a w)).
Proof.
  induction n as [|n IHn]; intros a w; [apply ctl_eq_refl|].
  cbn [get_image_loop].
  destruct (pop_retr (emit (EvFtpRetr (image_filename cfg)) w)) as [o w2] eqn:Hp.
  pose proof (ctl_eq_trans _ _ _ (ctl_emit _ w) (ctl_pop_retr _ _ _ Hp)) as H2.
  destruct o as [[img|]|f].
  - destruct (pop_noop (emit EvFtpNoop w2)) as [o' w4] eqn:Hq.
    pose proof (ctl_eq_trans _ _ _ H2
                  (ctl_eq_trans _ _ _ (ctl_emit _ w2) (ctl_pop_noop _ _ _ Hq))) as H4.
    destruct o' as [f|].
    + eapply ctl_eq_trans; [exact H4 | apply ctl_on_fault; intros; apply IHn].
    + cbn [snd]; eapply ctl_eq_trans; [exact H4 | apply ctl_timeout_set].
  - destruct (Nat.ltb a r); cbn [snd]; [|exact H2].
    eapply ctl_eq_trans; [exact H2|].
    eapply ctl_eq_trans; [apply ctl_sleep | apply IHn].
  - eapply ctl_eq_trans; [exact H2 | apply ctl_on_fault; intros; apply IHn].
Qed.

Lemma ctl_get_image cfg r w : ctl_eq w (snd (get_image cfg r w)).
Proof.
  unfold get_image.
  destruct (negb (ftp w)); [|apply ctl_get_image_loop].
  pose proof (ctl_connect_ftp w) as Hc.
  destruct (connect_ftp w) as [[ok msg] w2]; cbn in Hc.
  destruct ok; cbn; [|exact Hc].
  eapply ctl_eq_trans; [exact Hc | apply ctl_get_image_loop].
Qed.

Lemma get_image_loop_forms cfg r n : forall a w, a + n = r + 1 -> a <= r -> ftp w = true ->
  let '((ok, img, msg), w') := get_image_loop cfg r n a w in
  (ok = true /\
   (exists i, img = Some i /\
      msg = ("Image retrieved (" ++ str_of_nat (fst i) ++ "x" ++ str_of_nat (snd i) ++ ")")%string) /\
   timeout_count w' = 0 /\ ftp w' = true) \/
  (ok = false /\ img = None /\
   ((exists e, msg = ("FTP connection error: " ++ e)%string) \/
    (exists e, msg = ("FTP timeout after " ++ str_of_nat (r + 1) ++ " attempts: " ++ e)%string) \/
    (exists e, msg = ("FTP attempt " ++ str_of_nat (r + 1) ++ ": Error: " ++ e)%string) \/
    msg = ("FTP attempt " ++ str_of_nat (r + 1) ++ ": Failed to decode image")%string)).
Proof.
  induction n as [|n IHn]; intros a w Hn Ha Hftp; [lia|].
  cbn [get_image_loop].
  destruct (pop_retr (emit (EvFtpRetr (image_filename cfg)) w)) as [o w2] eqn:Hp.
  pose proof (ftp_pop_retr _ _ _ Hp) as F2; rewrite ftp_emit, Hftp in F2.
  (* the [except] branches, for a fault [f] at attempt [a] *)
  assert (Hfault : forall f w3, ftp w3 = true ->
    let '((ok, img, msg), w') := on_fault r a f (get_image_loop cfg r n (S a)) w3 in
    (ok = true /\
     (exists i, img = Some i /\
        msg = ("Image retrieved (" ++ str_of_nat (fst i) ++ "x" ++ str_of_nat (snd i) ++ ")")%string) /\
     timeout_count w' = 0 /\ ftp w' = true) \/
    (ok = false /\ img = None /\
     ((exists e, msg = ("FTP connection error: " ++ e)%string) \/
      (exists e, msg = ("FTP timeout after " ++ str_of_nat (r + 1) ++ " attempts: " ++ e)%string) \/
      (exists e, msg = ("FTP attempt " ++ str_of_nat (r + 1) ++ ": Error: " ++ e)%string) \/
      msg = ("FTP attempt " ++ str_of_nat (r + 1) ++ ": Failed to decode image")%string))).
  { intros f w3 F3.
    assert (Hgen : forall w4 fail_msg, ftp w4 = true ->
      (a = r -> (exists e, fail_msg = ("FTP timeout after " ++ str_of_nat (r + 1) ++ " attempts: " ++ e)%string) \/
                (exists e, fail_msg = ("FTP attempt " ++ str_of_nat (r + 1) ++ ": Error: " ++ e)%string)) ->
      let '((ok, img, msg), w') :=
        (if Nat.ltb a r then
           let '((ok, msg), w5) := connect_ftp w4 in
           if negb ok then ((false, None, msg), w5)
           else get_image_loop cfg r n (S a) (sleep (backoff_ms a) w5)
         else ((false, None, fail_msg), w4)) in
      (ok = true /\
       (exists i, img = Some i /\
          msg = ("Image retrieved (" ++ str_of_nat (fst i) ++ "x" ++ str_of_nat (snd i) ++ ")")%string) /\
       timeout_count w' = 0 /\ ftp w' = true) \/
      (ok = false /\ img = None /\
       ((exists e, msg = ("FTP connection error: " ++ e)%string) \/
        (exists e, msg = ("FTP timeout after " ++ str_of_nat (r + 1) ++ " attempts: " ++ e)%string) \/
        (exists e, msg = ("FTP attempt " ++ str_of_nat (r + 1) ++ ": Error: " ++ e)%string) \/
        msg = ("FTP attempt " ++ str_of_nat (r + 1) ++ ": Failed to decode image")%string))).
    { intros w4 fail_msg F4 Hmsg.
      destruct (Nat.ltb a r) eqn:Hlt.
      - apply Nat.ltb_lt in Hlt.
        destruct (connect_ftp w4) as [[ok msg] w5] eqn:Hc.
        destruct (connect_ftp_cases _ _ _ _ Hc) as [(-> & -> & F5) | (-> & He & F5)].
        + cbn -[get_image_loop sleep]. apply IHn; [lia|lia|]. rewrite ftp_sleep; exact F5.
        + cbn. right; repeat split; left; exact He.
      - apply Nat.ltb_ge in Hlt.
        right; repeat split. right.
        destruct Hmsg as [H|H]; [lia| left; exact H | right; left; exact H]. }
    destruct f as [e|e|e]; unfold on_fault; apply Hgen;
      try (rewrite ftp_timeout_upd; exact F3); try exact F3; intros Har; subst a; eauto. }
  destruct o as [[img|]|f].
  - destruct (pop_noop (emit EvFtpNoop w2)) as [o' w4] eqn:Hq.
    pose proof (ftp_pop_noop _ _ _ Hq) as F4; rewrite ftp_emit, F2 in F4.
    destruct o' as [f|].
    + apply Hfault; exact F4.
    + cbn. left; repeat split; eauto.
  - destruct (Nat.ltb a r) eqn:Hlt.
    + apply Nat.ltb_lt in Hlt. apply IHn; [lia|lia|]. rewrite ftp_sleep; exact F2.
    + apply Nat.ltb_ge in Hlt. assert (a = r) as -> by lia.
      right; repeat split; right; right; right; reflexivity.
  - apply Hfault; exact F2.
Qed.

Lemma get_image_forms cfg r w :
  let '((ok, img, msg), w') := get_image cfg r w in
  (ok = true /\
   (exists i, img = Some i /\
      msg = ("Image retrieved (" ++ str_of_nat (fst i) ++ "x" ++ str_of_nat (snd i) ++ ")")%string) /\
   timeout_count w' = 0 /\ ftp w' = true) \/
  (ok = false /\ img = None /\
   ((exists e, msg = ("FTP connection error: " ++ e)%string) \/
    (exists e, msg = ("FTP timeout after " ++ str_of_nat (r + 1) ++ " attempts: " ++ e)%string) \/
    (exists e, msg = ("FTP attempt " ++ str_of_nat (r + 1) ++ ": Error: " ++ e)%string) \/
    msg = ("FTP attempt " ++ str_of_nat (r + 1) ++ ": Failed to decode image")%string)).
Proof.
  unfold get_image.
  destruct (ftp w) eqn:F; cbn [negb].
  - apply get_image_loop_forms; [lia|lia|exact F].
  - destruct (connect_ftp w) as [[ok msg] w2] eqn:Hc.
    destruct (connect_ftp_cases _ _ _ _ Hc) as [(-> & -> & F2) | (-> & He & F2)]; cbn [negb].
    + apply get_image_loop_forms; [lia|lia|exact F2].
    + right; repeat split; left; exact He.
Qed.

Lemma clock_tel_read_until w : clock (snd (tel_read_until w)) = clock w.
Proof. destruct w; unfold tel_read_until; crush_world. Qed.

Lemma clock_tel_write d w : clock (tel_write d w) = clock w.
Proof. destruct w; unfold tel_write; crush_world. Qed.

Lemma clock_check_ftp_health w : clock (snd (check_ftp_health w)) = clock w.
Proof. destruct w; unfold check_ftp_health, pop_noop; crush_world. Qed.

Lemma trigger_se8_frame w : ctl_eq w (snd (trigger_se8 w)) /\ clock (snd (trigger_se8 w)) = clock w.
Proof.
  unfold trigger_se8.
  pose proof (ctl_tel_write ("SE8" ++ crlf) w) as H1.
  pose proof (clock_tel_write ("SE8" ++ crlf) w) as C1.
  set (w1 := tel_write _ w) in *.
  pose proof (ctl_tel_read_until w1) as H2. pose proof (clock_tel_read_until w1) as C2.
  destruct (tel_read_until w1) as [[resp|e] w2]; cbn in *;
    [destruct (contains_char _ _)|]; cbn;
    (split; [eapply ctl_eq_trans; eauto | congruence]).
Qed.

Lemma trigger_image_frame w :
  ctl_eq w (snd (trigger_image w)) /\ clock (snd (trigger_image w)) = clock w.
Proof.
  unfold trigger_image.
  destruct (negb (tn w)); [split; [apply ctl_eq_refl | reflexivity]|].
  pose proof (ctl_check_ftp_health w) as H1. pose proof (clock_check_ftp_health w) as C1.
  destruct (check_ftp_health w) as [healthy w1]; cbn [fst snd] in *.
  destruct healthy.
  - destruct (trigger_se8_frame w1) as [H2 C2].
    split; [eapply ctl_eq_trans; eauto | congruence].
  - pose proof (ctl_connect_ftp w1) as H2. pose proof (clock_connect_ftp w1) as C2.
    destruct (connect_ftp w1) as [[ok msg] w2]; cbn [fst snd] in *.
    destruct ok; cbn [negb].
    + destruct (trigger_se8_frame w2) as [H3 C3].
      split; [eapply ctl_eq_trans; [eapply ctl_eq_trans|]; eauto | congruence].
    + cbn [snd]; split; [eapply ctl_eq_trans; eauto | congruence].
Qed.

Lemma clock_on_fault r a f k w :
  (forall w', (clock w' <= clock (snd (k w')))%N) ->
  (clock w <= clock (snd (on_fault r a f k w)))%N.
Proof.
  intros Hk.
  assert (Hgen : forall w1 res_fail, clock w1 = clock w ->
    (clock w <= clock (snd (if Nat.ltb a r then
                     let '((ok, msg), w2) := connect_ftp w1 in
                     if negb ok then ((false, None, msg), w2)
                     else k (sleep (backoff_ms a) w2)
                   else (res_fail, w1))))%N).
  { intros w1 res_fail H1.
    destruct (Nat.ltb a r); [|cbn [snd]; lia].
    pose proof (clock_connect_ftp w1) as Hc.
    destruct (connect_ftp w1) as [[ok msg] w2]; cbn in Hc.
    destruct ok; cbn [negb snd]; [|lia].
    specialize (Hk (sleep (backoff_ms a) w2)); rewrite clock_sleep in Hk.
    eapply N.le_trans; [|exact Hk]. lia. }
  destruct f; unfold on_fault; apply Hgen;
    first [apply clock_timeout_upd | reflexivity].
Qed.

Lemma clock_get_image_loop cfg r n : forall a w,
  (clock w <= clock (snd (get_image_loop cfg r n a w)))%N.
Proof.
  induction n as [|n IHn]; intros a w; cbn [get_image_loop]; [cbn; lia|].
  destruct (pop_retr (emit (EvFtpRetr (image_filename cfg)) w)) as [o w2] eqn:Hp.
  pose proof (clock_pop_retr _ _ _ Hp) as C2; rewrite clock_emit in C2.
  destruct o as [[img|]|f].
  - destruct (pop_noop (emit EvFtpNoop w2)) as [o' w4] eqn:Hq.
    pose proof (clock_pop_noop _ _ _ Hq) as C4; rewrite clock_emit in C4.
    destruct o' as [f|].
    + rewrite <- C2, <- C4. apply clock_on_fault; intros; apply IHn.
    + cbn [snd]. destruct w4; cbn in *; lia.
  - destruct (Nat.ltb a r); cbn [snd]; [|lia].
    specialize (IHn (S a) (sleep (backoff_ms a) w2)); rewrite clock_sleep in IHn; lia.
  - rewrite <- C2. apply clock_on_fault; intros; apply IHn.
Qed.

Lemma clock_get_image cfg r w : (clock w <= clock (snd (get_image cfg r w)))%N.
Proof.
  unfold get_image.
  destruct (negb (ftp w)); [|apply clock_get_image_loop].
  pose proof (clock_connect_ftp w) as Hc.
  destruct (connect_ftp w) as [[ok msg] w2]; cbn in Hc.
  destruct ok; cbn; [|lia].
  rewrite <- Hc; apply clock_get_image_loop.
Qed.

Lemma put_fields r w :
  clock (put r w) = clock w /\ image_queue (put r w) = image_queue w ++ [r] /\
  trigger_count (put r w) = trigger_count w /\ trace (put r w) = trace w.
Proof. destruct w; repeat split. Qed.

(** Unfolding one pass of the stream loop that goes on, down to the
    world after the trigger and the one after the retrieval. *)
Lemma stream_iteration_cases cfg sd w w' :
  stream_iteration cfg sd w = (true, w') ->
  streaming w = true /\ (clock w < sd)%N /\
  ((paused w = true /\ w' = sleep 100 w) \/
   (paused w = false /\ exists t msg w1,
      trigger_image w = ((false, t, msg), w1) /\
      w' = sleep 100 (put (false, None, msg) w1)) \/
   (paused w = false /\ exists t msg w1 ok img msg2 w2,
      trigger_image w = ((true, t, msg), w1) /\
      get_image cfg 2 w1 = ((ok, img, msg2), w2) /\
      let w3 := put (ok, img, msg2) w2 in
      let elapsed := (clock w3 - last_capture_time w3)%N in
      let w4 := w3 {{ last_capture_time := clock w3 }} in
      w' = if ok && N.eqb elapsed 0 then
             sleep 100 (put (false, None, "Stream error: float division by zero"%string) w4)
           else
             let w5 := if ok then w4 {{ trigger_count ::= S }} else w4 in
             sleep (N.max (stream_interval cfg - (clock w5 - clock w)) 2) w5)).
Proof.
  unfold stream_iteration.
  destruct (streaming w) eqn:Hs; cbn [negb]; [|discriminate].
  destruct (N.leb_spec sd (clock w)) as [Hle|Hlt]; [discriminate|].
  destruct (paused w) eqn:Hp.
  - intros H; inversion H; subst; auto.
  - destruct (trigger_image w) as [[[ok t] msg] w1] eqn:Ht.
    destruct ok; cbn [negb].
    + destruct (get_image cfg 2 w1) as [[[ok2 img] msg2] w2] eqn:Hg.
      intros H. split; [reflexivity|]. split; [exact Hlt|].
      right; right; split; [reflexivity|].
      exists t, msg, w1, ok2, img, msg2, w2; split; [first [exact Ht | reflexivity]|]; split; [first [exact Hg | reflexivity]|].
      cbv zeta in H |- *.
      destruct ok2; cbn [andb] in H |- *; [destruct (N.eqb _ _)|];
        injection H as <-; reflexivity.
    + intros H; inversion H; subst. repeat split; auto.
      right; left; split; [reflexivity|]. exists t, msg, w1; auto.
Qed.

Lemma upd_fields w v :
  clock (w {{ last_capture_time := v }}) = clock w /\
  image_queue (w {{ last_capture_time := v }}) = image_queue w /\
  trigger_count (w {{ last_capture_time := v }}) = trigger_count w /\
  clock (w {{ trigger_count ::= S }}) = clock w /\
  image_queue (w {{ trigger_count ::= S }}) = image_queue w /\
  trigger_count (w {{ trigger_count ::= S }}) = S (trigger_count w).
Proof. destruct w; repeat split. Qed.

Lemma sleep_fields ms w :
  image_queue (sleep ms w) = image_queue w /\ trigger_count (sleep ms w) = trigger_count w /\
  trace (sleep ms w) = trace w ++ [EvSleep ms].
Proof. destruct w; repeat split. Qed.

(** X5: the acquisition loop never spins: every pass of [_stream_loop] that
    does not leave the loop ends with a [time.sleep] of at least 2 ms
    ([max(..., 0.002)] or the 0.1 s of the paused, failed-trigger and
    error paths), so the clock advances by at least 2 ms per pass. *)
Theorem stream_iteration_sleeps cfg sd w w' :
  stream_iteration cfg sd w = (true, w') ->
  (clock w + 2 <= clock w')%N /\
  exists pre ms, trace w' = pre ++ [EvSleep ms] /\ (2 <= ms)%N.
Proof.
  intros H.
  destruct (stream_iteration_cases _ _ _ _ H) as (_ & _ & [(Hp & ->) |
    [(Hp & t & msg & w1 & Ht & ->) | (Hp & t & msg & w1 & ok & img & msg2 & w2 & Ht & Hg & ->)]]).
  - rewrite clock_sleep, trace_sleep; split; [lia|]. eexists _, _; split; [reflexivity|lia].
  - destruct (trigger_image_frame w) as [_ C1]; rewrite Ht in C1; cbn [snd] in C1.
    destruct (put_fields (false, None, msg) w1) as [Cp _].
    rewrite clock_sleep, trace_sleep, Cp, C1; split; [lia|].
    eexists _, _; split; [reflexivity|lia].
  - destruct (trigger_image_frame w) as [_ C1]; rewrite Ht in C1; cbn [snd] in C1.
    pose proof (clock_get_image cfg 2 w1) as C2; rewrite Hg in C2; cbn [snd] in C2.
    destruct (put_fields (ok, img, msg2) w2) as [Cp _].
    set (w3 := put (ok, img, msg2) w2) in *.
    destruct (upd_fields w3 (clock w3)) as [U1 [_ [_ [U4 _]]]].
    set (w4 := w3 {{ last_capture_time := clock w3 }}) in *.
    destruct (ok && N.eqb _ 0).
    + destruct (put_fields (false, None, "Stream error: float division by zero"%string) w4) as [Cq _].
      rewrite clock_sleep, trace_sleep, Cq, U1, Cp; split; [lia|].
      eexists _, _; split; [reflexivity|lia].
    + assert (C5 : clock (if ok then w4 {{ trigger_count ::= S }} else w4) = clock w3).
      { destruct ok; [destruct (upd_fields w4 0) as (_&_&_&V4&_); rewrite V4|]; exact U1. }
      rewrite clock_sleep, trace_sleep, C5, Cp; split; [lia|].
      eexists _, _; split; [reflexivity|lia].
Qed.

(** X6: each pass of [_stream_loop] that goes on publishes at most two results
    ([image_queue.put]): none while paused, otherwise the trigger failure, or
    the retrieval result (and a "Stream error" after it when computing the
    capture rate raises); [trigger_count] grows by at most one, and only for
    a pass that published a successful retrieval as its only result. *)
Theorem stream_iteration_publishes cfg sd w w' :
  stream_iteration cfg sd w = (true, w') ->
  exists new, image_queue w' = image_queue w ++ new /\
    (paused w = true -> new = []) /\
    (paused w = false -> 1 <= length new <= 2) /\
    (trigger_count w' = trigger_count w \/
     (trigger_count w' = S (trigger_count w) /\
      exists i m, new = [(true, Some i, m)])).
Proof.
  intros H.
  destruct (stream_iteration_cases _ _ _ _ H) as (_ & _ & [(Hp & ->) |
    [(Hp & t & msg & w1 & Ht & ->) | (Hp & t & msg & w1 & ok & img & msg2 & w2 & Ht & Hg & ->)]]).
  - destruct (sleep_fields 100 w) as [Q1 [T1 _]].
    exists []; rewrite Q1, T1, app_nil_r; repeat split; auto; congruence.
  - destruct (trigger_image_frame w) as [F1 _]; rewrite Ht in F1; cbn [snd] in F1.
    destruct F1 as (_&_&_&_&_&T1&_&Q1).
    destruct (put_fields (false, None, msg) w1) as [_ [Qp [Tp _]]].
    destruct (sleep_fields 100 (put (false, None, msg) w1)) as [Qs [Ts _]].
    exists [(false, None, msg)]; rewrite Qs, Ts, Qp, Tp, Q1, T1.
    repeat split; auto; try congruence; cbn; lia.
  - destruct (trigger_image_frame w) as [F1 _]; rewrite Ht in F1; cbn [snd] in F1.
    destruct F1 as (_&_&_&_&_&T1&_&Q1).
    pose proof (ctl_get_image cfg 2 w1) as F2; rewrite Hg in F2; cbn [snd] in F2.
    destruct F2 as (_&_&_&_&_&T2&_&Q2).
    destruct (put_fields (ok, img, msg2) w2) as [_ [Qp [Tp _]]].
    set (w3 := put (ok, img, msg2) w2) in *.
    destruct (upd_fields w3 (clock w3)) as [_ [U2 [U3 [_ [U5 U6]]]]].
    set (w4 := w3 {{ last_capture_time := clock w3 }}) in *.
    destruct (ok && N.eqb _ 0).
    + destruct (put_fields (false, None, "Stream error: float division by zero"%string) w4)
        as [_ [Qq [Tq _]]].
      destruct (sleep_fields 100 (put (false, None, "Stream error: float division by zero"%string) w4))
        as [Qs [Ts _]].
      exists [(ok, img, msg2); (false, None, "Stream error: float division by zero"%string)].
      rewrite Qs, Ts, Qq, Tq, U2, U3, Qp, Tp, Q2, T2, Q1, T1, <- app_assoc.
      repeat split; auto; try congruence; cbn; lia.
    + exists [(ok, img, msg2)].
      destruct ok.
      * rewrite (proj1 (sleep_fields _ _)), (proj1 (proj2 (sleep_fields _ _))).
        destruct (upd_fields w4 0) as [_ [_ [_ [_ [V5 V6]]]]].
        rewrite V5, V6, U2, U3, Qp, Tp, Q2, T2, Q1, T1.
        split; [reflexivity|]. split; [congruence|]. split; [cbn; lia|].
        right; split; [reflexivity|].
        destruct img as [i|].
        -- exists i, msg2; reflexivity.
        -- exfalso.
           pose proof (get_image_forms cfg 2 w1) as Hf. rewrite Hg in Hf.
           destruct Hf as [(_ & [i [Hi _]] & _) | (Hok & _)]; discriminate.
      * rewrite (proj1 (sleep_fields _ _)), (proj1 (proj2 (sleep_fields _ _))).
        rewrite U2, U3, Qp, Tp, Q2, T2, Q1, T1.
        repeat split; auto; try congruence; cbn; lia.
Qed.

(** ** Telnet-only steps *)

Lemma tel_only_refl w : tel_only w w.
Proof.
  unfold tel_only; split; [apply ctl_eq_refl|].
  do 5 (split; [reflexivity|]).
  exists []; rewrite app_nil_r; auto.
Qed.

Lemma tel_only_trans w1 w2 w3 : tel_only w1 w2 -> tel_only w2 w3 -> tel_only w1 w3.
Proof.
  unfold tel_only; intros (C1&F1&K1&A1&B1&R1&n1&T1&E1) (C2&F2&K2&A2&B2&R2&n2&T2&E2).
  split; [eapply ctl_eq_trans; eauto|].
  do 5 (split; [congruence|]).
  exists (n1 ++ n2); rewrite T2, T1, app_assoc; split; [reflexivity|].
  rewrite forallb_app, E1, E2; reflexivity.
Qed.

Ltac tel_only_crush :=
  crush_world; try (exists []; rewrite app_nil_r; split; reflexivity);
  try (eexists; split; [reflexivity | reflexivity]).

Lemma tel_only_read_until w : tel_only w (snd (tel_read_until w)).
Proof. destruct w; unfold tel_read_until, tel_only; tel_only_crush. Qed.

Lemma tel_only_drain w : tel_only w (snd (tel_drain w)).
Proof.
  destruct w; unfold tel_drain, tel_only; cbn.
  destruct (take_lines _) as [[|? ?] [|[?|] ?]]; tel_only_crush.
Qed.

Lemma tel_only_write d w : tel_only w (tel_write d w).
Proof. destruct w; unfold tel_write, tel_only; tel_only_crush. Qed.

Lemma tel_only_read_more n : forall w, tel_only w (snd (read_more n w)) /\
  length (fst (read_more n w)) <= n /\ Forall (fun l => l <> ""%string) (fst (read_more n w)).
Proof.
  induction n as [|n IHn]; intros w; cbn [read_more].
  - split; [apply tel_only_refl | cbn; auto].
  - pose proof (tel_only_read_until w) as H1.
    destruct (tel_read_until w) as [[line|e] w1]; cbn [snd] in H1.
    + destruct line as [|c s].
      * cbn; split; [exact H1 | auto with arith].
      * destruct (IHn w1) as (H2 & L2 & N2).
        destruct (read_more n w1) as [ls w2]; cbn [fst snd] in *.
        split; [eapply tel_only_trans; eauto|].
        split; [cbn; lia|]. constructor; [discriminate | exact N2].
    + cbn; split; [exact H1 | auto with arith].
Qed.

Lemma exchange_props command w :
  tel_only w (snd (exchange command w)) /\
  (fst (fst (exchange command w)) = true ->
   exists more, length more <= 5 /\ Forall (fun l => l <> ""%string) more /\
     snd (fst (exchange command w)) =
       ("Command " ++ lstr command ++ ": " ++ join_lines ("1" :: more))%string).
Proof.
  unfold exchange.
  pose proof (tel_only_drain w) as H1.
  destruct (tel_drain w) as [[u|e] w1]; cbn [snd] in H1; [|cbn; split; [exact H1 | discriminate]].
  pose proof (tel_only_write (lstr command ++ crlf) w1) as H2.
  set (w2 := tel_write _ w1) in *.
  pose proof (tel_only_read_until w2) as H3.
  destruct (tel_read_until w2) as [[status|e] w3]; cbn [snd] in H3;
    [|cbn; split; [eapply tel_only_trans; [exact H1|eapply tel_only_trans; eauto] | discriminate]].
  destruct (tel_only_read_more 5 w3) as (H4 & L4 & N4).
  destruct (read_more 5 w3) as [more w4]; cbn [fst snd] in H4, L4, N4.
  pose proof (tel_only_drain w4) as H5.
  assert (Hw : tel_only w w4).
  { eapply tel_only_trans; [exact H1|]. eapply tel_only_trans; [exact H2|].
    eapply tel_only_trans; [exact H3|exact H4]. }
  destruct (tel_drain w4) as [[v|e] w5]; cbn [snd] in H5;
    [|cbn; split; [eapply tel_only_trans; eauto | discriminate]].
  assert (Hw5 : tel_only w w5) by (eapply tel_only_trans; eauto).
  destruct (String.eqb status "1") eqn:E1; [|destruct (String.eqb status "0");
    [|destruct (String.eqb status "-1" || String.eqb status "-2")]];
    cbn [fst snd]; split; try exact Hw5; try discriminate.
  intros _. apply String.eqb_eq in E1; subst status.
  exists more; auto.
Qed.

Lemma send_native_command_props w c :
  tel_only w (snd (send_native_command w c)) /\
  (forall msg, fst (send_native_command w c) = Return (true, msg) ->
   exists more, length more <= 5 /\ Forall (fun l => l <> ""%string) more /\
     msg = ("Command " ++ lstr (normalize c) ++ ": " ++ join_lines ("1" :: more))%string).
Proof.
  unfold send_native_command.
  destruct (negb (tn w)); [cbn; split; [apply tel_only_refl | intros msg H; discriminate]|].
  destruct (validate (normalize c)) as [[msg0|]|e];
    [cbn; split; [apply tel_only_refl | intros msg H; discriminate] | |
     cbn; split; [apply tel_only_refl | intros msg H; discriminate]].
  destruct (exchange_props (normalize c) w) as [H1 H2].
  destruct (exchange (normalize c) w) as [[ok m] w1]; cbn [fst snd] in *.
  split; [exact H1|]. intros msg H; injection H as -> ->. apply H2; reflexivity.
Qed.

(** ** [trigger_image] *)

Lemma trace_tel_write d w : trace (tel_write d w) = trace w ++ [EvTelWrite d].
Proof. destruct w as [? ? ? ? ? ? ? ? ? ? ? ? ? ? ? ? ? ? [|? ?]]; reflexivity. Qed.

Lemma trace_tel_read_until w : trace (snd (tel_read_until w)) = trace w ++ [EvTelRead].
Proof. destruct w as [? ? ? ? ? ? ? ? ? ? ? ? ? ? ? ? ? [|[?|] ?] ?]; reflexivity. Qed.

Lemma trace_tel_drain w : trace (snd (tel_drain w)) = trace w ++ [EvTelDrain].
Proof.
  destruct w; unfold tel_drain; cbn.
  destruct (take_lines _) as [[|? ?] [|[?|] ?]]; reflexivity.
Qed.

Lemma connect_ftp_no_tel w :
  exists new, trace (snd (connect_ftp w)) = trace w ++ new /\ filter is_tel_write new = [] /\
              tn (snd (connect_ftp w)) = tn w.
Proof.
  destruct w as [tn0 ftp0 ? ? ? ? ? ? ? ? ? ? ? tr cs ? ? ? ?].
  destruct ftp0, cs as [|[e|] cs]; simpl;
    eexists; (split; [app_norm; reflexivity | split; reflexivity]).
Qed.

Lemma check_ftp_health_props w h w1 :
  check_ftp_health w = (h, w1) ->
  (exists new, trace w1 = trace w ++ new /\ filter is_tel_write new = []) /\
  ftp w1 = ftp w /\ tn w1 = tn w /\ (h = true -> ftp w1 = true).
Proof.
  destruct w as [tn0 ftp0 ? ? ? ? ? ? ? ? ? ? ? tr ? ns ? ? ?].
  destruct ftp0.
  - destruct ns as [|[f|] ns]; cbn; intros H; inversion H; subst; cbn;
      (split; [exists [EvFtpNoop]; split; reflexivity | repeat split; auto]).
  - cbn; intros H; inversion H; subst; cbn.
    split; [exists []; rewrite app_nil_r; split; reflexivity | repeat split; auto; discriminate].
Qed.

Lemma trigger_se8_props w :
  let '((ok, t, msg), w') := trigger_se8 w in
  trace w' = trace w ++ [EvTelWrite ("SE8" ++ crlf); EvTelRead] /\
  ftp w' = ftp w /\ t <> None.
Proof.
  unfold trigger_se8.
  pose proof (trace_tel_write ("SE8" ++ crlf) w) as T1.
  pose proof (tel_only_write ("SE8" ++ crlf) w) as (_ & F1 & _).
  set (w1 := tel_write _ w) in *.
  pose proof (trace_tel_read_until w1) as T2.
  pose proof (tel_only_read_until w1) as (_ & F2 & _).
  destruct (tel_read_until w1) as [[resp|e] w2]; cbn [snd] in T2, F2;
    [destruct (contains_char _ _)|];
    (split; [rewrite T2, T1, <- app_assoc; reflexivity | split; [congruence | discriminate]]).
Qed.

(** X1: [trigger_image] writes at most one Telnet command, SE8.  Either it
    writes nothing and fails with no trigger time ("Not connected to camera",
    or "FTP reconnect failed: ..." after a failed FTP health check and
    reconnect), or it writes exactly SE8, on a connected Telnet session and
    with the FTP session present, and reports a trigger time. *)
Theorem trigger_image_writes_se8_once w :
  let '((ok, t, msg), w') := trigger_image w in
  exists new, trace w' = trace w ++ new /\
  ((filter is_tel_write new = [] /\ ok = false /\ t = None /\
    (msg = "Not connected to camera"%string \/
     exists m, msg = ("FTP reconnect failed: " ++ m)%string)) \/
   (filter is_tel_write new = [EvTelWrite ("SE8" ++ crlf)%string] /\
    tn w = true /\ ftp w' = true /\ t <> None)).
Proof.
  unfold trigger_image.
  destruct (tn w) eqn:Htn; cbn [negb].
  2:{ exists []; rewrite app_nil_r; split; [reflexivity|]. left; auto. }
  destruct (check_ftp_health w) as [healthy w1] eqn:Hh.
  destruct (check_ftp_health_props _ _ _ Hh) as ([n1 [T1 E1]] & F1 & _ & H1).
  destruct healthy.
  - pose proof (trigger_se8_props w1) as P.
    destruct (trigger_se8 w1) as [[[ok t] msg] w2].
    destruct P as (T2 & F2 & Ht).
    exists (n1 ++ [EvTelWrite ("SE8" ++ crlf)%string; EvTelRead]).
    rewrite T2, T1, app_assoc; split; [reflexivity|].
    right; rewrite filter_app, E1; repeat split; auto. rewrite F2; auto.
  - destruct (connect_ftp_no_tel w1) as [n2 [T2 [E2 _]]].
    destruct (connect_ftp w1) as [[ok msg] w2] eqn:Hc; cbn [snd] in T2.
    destruct (connect_ftp_cases _ _ _ _ Hc) as [(-> & -> & F2) | (-> & _ & F2)]; cbn [negb].
    + pose proof (trigger_se8_props w2) as P.
      destruct (trigger_se8 w2) as [[[ok t] msg'] w3].
      destruct P as (T3 & F3 & Ht).
      exists (n1 ++ n2 ++ [EvTelWrite ("SE8" ++ crlf)%string; EvTelRead]).
      rewrite T3, T2, T1, !app_assoc; split; [reflexivity|].
      right; rewrite !filter_app, E1, E2; repeat split; auto. rewrite F3; auto.
    + exists (n1 ++ n2). rewrite T2, T1, app_assoc; split; [reflexivity|].
      left; rewrite filter_app, E1, E2; repeat split; eauto.
Qed.

Lemma stream_iteration_sleeps_witness :
  let w := snd (pause_streaming (snd (start_live_stream cfg0 w0))) in
  (clock w + 2 <= clock (sleep 100 w))%N /\
  exists pre ms, trace (sleep 100 w) = pre ++ [EvSleep ms] /\ (2 <= ms)%N.
Proof.
  exact (stream_iteration_sleeps cfg0 1000
           (snd (pause_streaming (snd (start_live_stream cfg0 w0))))
           (sleep 100 (snd (pause_streaming (snd (start_live_stream cfg0 w0)))))
           ltac:(vm_compute; reflexivity)).
Defined.

Lemma stream_iteration_publishes_witness :
  let w' := snd (stream_iteration cfg0 100000 w_streaming_ok) in
  exists new, image_queue w' = image_queue w_streaming_ok ++ new /\
    (paused w_streaming_ok = true -> new = []) /\
    (paused w_streaming_ok = false -> 1 <= length new <= 2) /\
    (trigger_count w' = trigger_count w_streaming_ok \/
     (trigger_count w' = S (trigger_count w_streaming_ok) /\
      exists i m, new = [(true, Some i, m)])).
Proof.
  exact (stream_iteration_publishes cfg0 100000 w_streaming_ok
           (snd (stream_iteration cfg0 100000 w_streaming_ok))
           ltac:(vm_compute; reflexivity)).
Defined.

(** X2: [get_image] returns either a decoded image with the message
    "Image retrieved (WxH)", the FTP session present and [timeout_count]
    reset to 0, or a failure without image whose message is an FTP connection
    error, the timeout, error or decode message of the last attempt; the final
    "FTP retrieval failed after ..." line is never reached. *)
Theorem get_image_result_forms cfg r w :
  let '((ok, img, msg), w') := get_image cfg r w in
  (ok = true /\
   (exists i, img = Some i /\
      msg = ("Image retrieved (" ++ str_of_nat (fst i) ++ "x" ++ str_of_nat (snd i) ++ ")")%string) /\
   timeout_count w' = 0 /\ ftp w' = true) \/
  (ok = false /\ img = None /\
   ((exists e, msg = ("FTP connection error: " ++ e)%string) \/
    (exists e, msg = ("FTP timeout after " ++ str_of_nat (r + 1) ++ " attempts: " ++ e)%string) \/
    (exists e, msg = ("FTP attempt " ++ str_of_nat (r + 1) ++ ": Error: " ++ e)%string) \/
    msg = ("FTP attempt " ++ str_of_nat (r + 1) ++ ": Failed to decode image")%string)).
Proof. exact (get_image_forms cfg r w). Qed.

(** ** The timeout counter across Telnet I/O *)

Ltac timeout_crush :=
  cbn; repeat (match goal with |- context [match ?x with _ => _ end] => destruct x; cbn end);
  reflexivity.

Lemma timeout_tel_read_until w : timeout_count (snd (tel_read_until w)) = timeout_count w.
Proof. destruct w; unfold tel_read_until; timeout_crush. Qed.

Lemma timeout_tel_drain w : timeout_count (snd (tel_drain w)) = timeout_count w.
Proof. destruct w; unfold tel_drain; timeout_crush. Qed.

Lemma timeout_tel_write d w : timeout_count (tel_write d w) = timeout_count w.
Proof. destruct w; unfold tel_write; timeout_crush. Qed.

Lemma timeout_read_more n : forall w, timeout_count (snd (read_more n w)) = timeout_count w.
Proof.
  induction n as [|n IHn]; intros w; cbn [read_more]; [reflexivity|].
  pose proof (timeout_tel_read_until w) as H1.
  destruct (tel_read_until w) as [[line|e] w1]; cbn [snd] in H1; [|exact H1].
  destruct line as [|c s]; [exact H1|].
  pose proof (IHn w1) as H2.
  destruct (read_more n w1) as [ls w2]; cbn [snd] in H2; cbn [snd]; congruence.
Qed.

Lemma timeout_exchange command w : timeout_count (snd (exchange command w)) = timeout_count w.
Proof.
  unfold exchange.
  pose proof (timeout_tel_drain w) as H1.
  destruct (tel_drain w) as [[u|e] w1]; cbn [snd] in H1; [|exact H1].
  pose proof (timeout_tel_write (lstr command ++ crlf) w1) as H2.
  set (w2 := tel_write _ w1) in *. clearbody w2.
  pose proof (timeout_tel_read_until w2) as H3.
  destruct (tel_read_until w2) as [[status|e] w3]; cbn [snd] in H3; [|cbn [snd]; congruence].
  pose proof (timeout_read_more 5 w3) as H4.
  destruct (read_more 5 w3) as [more w4]; cbn [snd] in H4.
  pose proof (timeout_tel_drain w4) as H5.
  destruct (tel_drain w4) as [[v|e] w5]; cbn [snd] in H5; [|cbn [snd]; congruence].
  destruct (String.eqb status "1"); [|destruct (String.eqb status "0");
    [|destruct (String.eqb status "-1" || String.eqb status "-2")]];
    cbn [snd]; congruence.
Qed.

Lemma timeout_send_native_command w c :
  timeout_count (snd (send_native_command w c)) = timeout_count w.
Proof.
  unfold send_native_command.
  destruct (negb (tn w)); [reflexivity|].
  destruct (validate (normalize c)) as [[msg0|]|e]; [reflexivity| |reflexivity].
  pose proof (timeout_exchange (normalize c) w) as H.
  destruct (exchange (normalize c) w) as [r w1]; exact H.
Qed.

(** X3: [send_native_command] performs only Telnet I/O: it never touches the
    FTP session, the clock, the stream flags, the counters ([trigger_count]
    and [timeout_count]) or the image queue, and never closes the Telnet
    session. *)
Theorem send_native_command_telnet_only w c :
  tel_only w (snd (send_native_command w c)) /\
  timeout_count (snd (send_native_command w c)) = timeout_count w.
Proof.
  split; [exact (proj1 (send_native_command_props w c)) | apply timeout_send_native_command].
Qed.

(** X4: a successful [send_native_command] reports the normalised command and
    the reply: the status line "1" followed by at most 5 further non-empty
    lines, joined by newlines. *)
Theorem send_native_command_success_reply w c msg :
  fst (send_native_command w c) = Return (true, msg) ->
  exists more, length more <= 5 /\ Forall (fun l => l <> ""%string) more /\
    msg = ("Command " ++ lstr (normalize c) ++ ": " ++ join_lines ("1"%string :: more))%string.
Proof. exact (proj2 (send_native_command_props w c) msg). Qed.

Lemma send_native_command_success_reply_witness :
  exists more, length more <= 5 /\ Forall (fun l => l <> ""%string) more /\
    ("Command GVA005: 1" ++ String "010"%char "45.2")%string =
    ("Command " ++ lstr (normalize "gva005 ") ++ ": " ++ join_lines ("1"%string :: more))%string.
Proof.
  apply (send_native_command_success_reply
           (w0 {{ tel_replies := [[TLine "1"%string; TLine "45.2"%string]] }}) "gva005 "
           ("Command GVA005: 1" ++ String "010"%char "45.2")).
  vm_compute; reflexivity.
Defined.


(** ** [connect] *)

Lemma cframe_refl w : cframe w w [].
Proof. repeat split; exists []; rewrite app_nil_r; auto. Qed.

Lemma cframe_trans w1 w2 w3 a b :
  cframe w1 w2 a -> cframe w2 w3 b -> cframe w1 w3 (a ++ b).
Proof.
  intros (F1 & N1 & n1 & T1 & E1) (F2 & N2 & n2 & T2 & E2).
  split; [congruence|]; split; [congruence|].
  exists (n1 ++ n2); rewrite T2, T1, app_assoc, filter_app, E1, E2; auto.
Qed.

Lemma cframe_of_tel_only w w' :
  tel_only w w' -> (forall new, trace w' = trace w ++ new -> filter is_tel_write new = []) ->
  cframe w w' [].
Proof.
  intros (C & F & _ & _ & _ & _ & new & T & _) H.
  split; [exact F|]; split; [exact (proj1 C)|].
  exists new; split; [exact T|]; exact (H new T).
Qed.

Lemma app_inv_l' {A} (l l1 l2 : list A) : l ++ l1 = l ++ l2 -> l1 = l2.
Proof. apply app_inv_head. Qed.

Lemma cframe_read w : cframe w (snd (tel_read_until w)) [].
Proof.
  apply cframe_of_tel_only; [apply tel_only_read_until|].
  intros new T; rewrite trace_tel_read_until in T; apply app_inv_l' in T; subst; reflexivity.
Qed.

Lemma cframe_drain w : cframe w (snd (tel_drain w)) [].
Proof.
  apply cframe_of_tel_only; [apply tel_only_drain|].
  intros new T; rewrite trace_tel_drain in T; apply app_inv_l' in T; subst; reflexivity.
Qed.

Lemma cframe_write d w : cframe w (tel_write d w) [EvTelWrite d].
Proof.
  destruct (tel_only_write d w) as (C & F & _).
  split; [exact F|]; split; [exact (proj1 C)|].
  exists [EvTelWrite d]; rewrite trace_tel_write; auto.
Qed.

Lemma cframe_sleep ms w : cframe w (sleep ms w) [].
Proof.
  split; [apply ftp_sleep|]; split; [exact (proj1 (ctl_sleep ms w))|].
  exists [EvSleep ms]; split; [apply trace_sleep|reflexivity].
Qed.

Lemma close_tn_props w :
  tn (close_tn w) = false /\ ftp (close_tn w) = ftp w /\
  exists new, trace (close_tn w) = trace w ++ new /\ filter is_tel_write new = [].
Proof. destruct w; cbn; repeat split; eexists; split; reflexivity. Qed.

Lemma connect_error_props e w :
  let '((ok, msg), w') := connect_error e w in
  ok = false /\ msg = ("Connection error: " ++ e)%string /\
  tn w' = false /\ ftp w' = false /\
  exists new, trace w' = trace w ++ new /\ filter is_tel_write new = [].
Proof.
  destruct w as [tn0 ftp0 ? ? ? ? ? ? ? ? ? ? ? tr ? ? ? ? ?];
    destruct tn0, ftp0; cbn;
    (split; [reflexivity|]); (split; [reflexivity|]);
    (split; [reflexivity|]); (split; [reflexivity|]);
    first [ exists []; rewrite app_nil_r; split; reflexivity
          | rewrite <- ?app_assoc; eexists; split; reflexivity ].
Qed.

Lemma cframe_eq w w' a b : a = b -> cframe w w' a -> cframe w w' b.
Proof. intros ->; auto. Qed.

Lemma gi_loop_props n : forall a w,
  match gi_loop n a w with
  | GIOk w' | GIRaise _ w' =>
      exists k, cframe w w' (repeat GIw k) /\ k <= n /\ (n <> 0 -> 1 <= k)
  | GIFail msg w' =>
      exists k w'', cframe w w'' (repeat GIw k) /\ w' = close_tn w'' /\ 1 <= k <= n /\
      (msg = "Invalid serial number"%string \/
       msg = "GI verification failed after 2 attempts"%string)
  end.
Proof.
  induction n as [|n IH]; intros a w; cbn [gi_loop].
  { exists 0; split; [apply cframe_refl|lia]. }
  pose proof (cframe_write ("GI" ++ crlf) w) as F1.
  set (w1 := tel_write _ w) in *.
  destruct (tel_read_until w1) as [[r|e] w2] eqn:E2;
    pose proof (cframe_read w1) as F2; rewrite E2 in F2; cbn [snd] in F2;
    pose proof (cframe_trans _ _ _ _ _ F1 F2) as F12; cbn [app] in F12.
  2:{ exists 1; split; [exact F12|lia]. }
  destruct (String.eqb r "1").
  - destruct (tel_read_until w2) as [[sl|e] w3] eqn:E3;
      pose proof (cframe_read w2) as F3; rewrite E3 in F3; cbn [snd] in F3;
      pose proof (cframe_trans _ _ _ _ _ F12 F3) as F13; cbn [app] in F13.
    2:{ exists 1; split; [exact F13|lia]. }
    destruct (_ && _).
    + destruct (tel_read_until w3) as [[?|e] w4] eqn:E4;
        pose proof (cframe_read w3) as F4; rewrite E4 in F4; cbn [snd] in F4;
        pose proof (cframe_trans _ _ _ _ _ F13 F4) as F14; cbn [app] in F14.
      all: exists 1; split; [exact F14|lia].
    + destruct (Nat.ltb a (gi_retries - 1)) eqn:Ha.
      * pose proof (cframe_trans _ _ _ _ _ F13 (cframe_sleep 300 w3)) as F5.
        pose proof (cframe_trans _ _ _ _ _ F5 (cframe_sleep 300 (sleep 300 w3))) as F6.
        cbn [app] in F6.
        specialize (IH (S a) (sleep 300 (sleep 300 w3))).
        destruct (gi_loop n (S a) _) as [w'|msg w'|e w'].
        -- destruct IH as (k & F & Hk).
           exists (S k); split; [|lia].
           exact (cframe_trans _ _ _ _ _ F6 F).
        -- destruct IH as (k & w'' & F & -> & Hk & Hm).
           exists (S k), w''; split; [exact (cframe_trans _ _ _ _ _ F6 F)|].
           split; [reflexivity|]; split; [lia|exact Hm].
        -- destruct IH as (k & F & Hk).
           exists (S k); split; [|lia].
           exact (cframe_trans _ _ _ _ _ F6 F).
      * exists 1, w3; split; [exact F13|]; split; [reflexivity|]; split; [lia|auto].
  - destruct (Nat.ltb a (gi_retries - 1)) eqn:Ha.
    * pose proof (cframe_trans _ _ _ _ _ F12 (cframe_sleep 300 w2)) as F6.
      cbn [app] in F6.
      specialize (IH (S a) (sleep 300 w2)).
      destruct (gi_loop n (S a) _) as [w'|msg w'|e w'].
      -- destruct IH as (k & F & Hk).
         exists (S k); split; [|lia].
         exact (cframe_trans _ _ _ _ _ F6 F).
      -- destruct IH as (k & w'' & F & -> & Hk & Hm).
         exists (S k), w''; split; [exact (cframe_trans _ _ _ _ _ F6 F)|].
         split; [reflexivity|]; split; [lia|exact Hm].
      -- destruct IH as (k & F & Hk).
         exists (S k); split; [|lia].
         exact (cframe_trans _ _ _ _ _ F6 F).
    * exists 1, w2; split; [exact F12|]; split; [reflexivity|]; split; [lia|auto].
Qed.

Lemma connect_leaf_error u p w w1 w2 k e :
  trace w1 = trace w -> cframe w1 w2 (firstn k (connect_writes u p)) ->
  connect_post u p w (connect_error e w2).
Proof.
  intros T1 (_ & _ & n2 & T2 & E2).
  pose proof (connect_error_props e w2) as H.
  destruct (connect_error e w2) as [[ok msg] w'].
  destruct H as (-> & -> & Htn & Hftp & n3 & T3 & E3).
  split; [right; split; [reflexivity|]; split; [exact Htn|]; left; eauto|].
  exists (n2 ++ n3), k; rewrite T3, T2, T1, app_assoc, filter_app, E2, E3, app_nil_r.
  repeat split; try discriminate.
Qed.

Lemma connect_leaf_close u p w w1 w2 k msg :
  trace w1 = trace w -> ftp w1 = ftp w -> cframe w1 w2 (firstn k (connect_writes u p)) ->
  (msg = "Invalid welcome message"%string \/ msg = "Telnet login failed"%string \/
   msg = "Invalid serial number"%string \/
   msg = "GI verification failed after 2 attempts"%string) ->
  (msg = "Invalid welcome message"%string -> k = 0) ->
  connect_post u p w ((false, msg), close_tn w2).
Proof.
  intros T1 F1 (F2 & _ & n2 & T2 & E2) Hm Hk.
  destruct (close_tn_props w2) as (Htn & Hftp & n3 & T3 & E3).
  split; [right; split; [reflexivity|]; split; [exact Htn|]; right; right; split; [exact Hm|congruence]|].
  exists (n2 ++ n3), k; rewrite T3, T2, T1, app_assoc, filter_app, E2, E3, app_nil_r.
  repeat split; try discriminate; exact Hk.
Qed.

Lemma connect_leaf_ftp u p w w1 w2 k :
  trace w1 = trace w -> tn w1 = true -> cframe w1 w2 (firstn k (connect_writes u p)) -> 3 <= k ->
  connect_post u p w
    (let '((ok, msg), w) := connect_ftp w2 in
     if negb ok then ((false, msg), if tn w then close_tn w else w)
     else ((true, "Connected to camera"%string), w)).
Proof.
  intros T1 N1 (F2 & N2 & n2 & T2 & E2) Hk.
  destruct (connect_ftp_no_tel w2) as (n3 & T3 & E3 & N3).
  destruct (connect_ftp w2) as [[ok msg] w3] eqn:Hc; cbn [snd] in T3, N3.
  destruct (connect_ftp_cases _ _ _ _ Hc) as [(-> & -> & F3) | (-> & [e ->] & F3)]; cbn [negb].
  - split; [left; repeat split; congruence|].
    exists (n2 ++ n3), k; rewrite T3, T2, T1, app_assoc, filter_app, E2, E3, app_nil_r.
    repeat split; try discriminate; lia.
  - assert (N4 : tn w3 = true) by congruence. rewrite N4.
    destruct (close_tn_props w3) as (Htn & Hftp & n4 & T4 & E4).
    split; [right; split; [reflexivity|]; split; [exact Htn|]; right; left; exists e; split; congruence|].
    exists (n2 ++ n3 ++ n4), k; rewrite T4, T3, T2, T1, !app_assoc, !filter_app, E2, E3, E4, !app_nil_r.
    repeat split; try discriminate.
Qed.

Lemma connect_props u p o w : connect_post u p w (connect u p o w).
Proof.
  unfold connect. destruct o as [e|].
  { pose proof (connect_error_props e w) as H.
    destruct (connect_error e w) as [[ok msg] w'].
    destruct H as (-> & -> & Htn & Hftp & n & T & E).
    split; [right; split; [reflexivity|]; split; [exact Htn|]; left; eauto|].
    exists n, 0; repeat split; auto; discriminate. }
  assert (H1 : tn (w {{ tn := true }}) = true /\ ftp (w {{ tn := true }}) = ftp w /\
               trace (w {{ tn := true }}) = trace w) by (destruct w; auto).
  set (w1 := w {{ tn := true }}) in *.
  destruct H1 as (N1 & F1 & T1).
  pose proof (cframe_refl w1) as C0.
  destruct (tel_read_until w1) as [[welcome|e] w2] eqn:E2;
    pose proof (cframe_read w1) as C2; rewrite E2 in C2; cbn [snd] in C2.
  2:{ apply (connect_leaf_error u p w w1 w2 0 e T1 C2). }
  destruct (negb (str_contains "In-Sight" welcome)).
  { apply (connect_leaf_close u p w w1 w2 0 _ T1 F1 C2); auto. }
  destruct (tel_read_until w2) as [[?|e] w3] eqn:E3;
    pose proof (cframe_trans _ _ _ _ _ C2 (cframe_read w2)) as C3; rewrite E3 in C3;
    cbn [snd app] in C3.
  2:{ apply (connect_leaf_error u p w w1 w3 0 e T1 C3). }
  pose proof (cframe_trans _ _ _ _ _ C3 (cframe_write (u ++ crlf) w3)) as C4.
  pose proof (cframe_trans _ _ _ _ _ C4 (cframe_sleep 100 (tel_write (u ++ crlf) w3))) as C5.
  cbn [app] in C5.
  set (w5 := sleep 100 (tel_write (u ++ crlf) w3)) in *.
  destruct (tel_read_until w5) as [[?|e] w6] eqn:E6;
    pose proof (cframe_trans _ _ _ _ _ C5 (cframe_read w5)) as C6; rewrite E6 in C6;
    cbn [snd app] in C6.
  2:{ apply (connect_leaf_error u p w w1 w6 1 e T1 C6). }
  pose proof (cframe_trans _ _ _ _ _ C6 (cframe_write (p ++ crlf) w6)) as C7.
  cbn [app] in C7.
  set (w7 := tel_write (p ++ crlf) w6) in *.
  destruct (tel_read_until w7) as [[response|e] w8] eqn:E8;
    pose proof (cframe_trans _ _ _ _ _ C7 (cframe_read w7)) as C8; rewrite E8 in C8;
    cbn [snd app] in C8.
  2:{ apply (connect_leaf_error u p w w1 w8 2 e T1 C8). }
  destruct (negb (str_contains "User Logged In" response)).
  { apply (connect_leaf_close u p w w1 w8 2 _ T1 F1 C8); auto; discriminate. }
  destruct (tel_drain w8) as [[?|e] w9] eqn:E9;
    pose proof (cframe_trans _ _ _ _ _ C8 (cframe_drain w8)) as C9; rewrite E9 in C9;
    cbn [snd app] in C9.
  2:{ apply (connect_leaf_error u p w w1 w9 2 e T1 C9). }
  pose proof (gi_loop_props gi_retries 0 w9) as G.
  destruct (gi_loop gi_retries 0 w9) as [w'|msg w'|e w'].
  - destruct G as (k & G & [Ha Hb]).
    assert (Hk' : k = 1 \/ k = 2)
      by (unfold gi_retries in *; specialize (Hb ltac:(discriminate)); lia).
    apply (connect_leaf_ftp u p w w1 w' (2 + k) T1 N1); [|lia].
    refine (cframe_eq _ _ _ _ _ (cframe_trans _ _ _ _ _ C9 G)).
    destruct Hk' as [-> | ->]; reflexivity.
  - destruct G as (k & w'' & G & -> & Hk & Hm).
    assert (Hk' : k = 1 \/ k = 2) by (unfold gi_retries in *; lia).
    apply (connect_leaf_close u p w w1 w'' (2 + k) _ T1 F1).
    + refine (cframe_eq _ _ _ _ _ (cframe_trans _ _ _ _ _ C9 G)).
      destruct Hk' as [-> | ->]; reflexivity.
    + destruct Hm as [-> | ->]; auto.
    + destruct Hm as [-> | ->]; discriminate.
  - destruct G as (k & G & [Ha Hb]).
    assert (Hk' : k = 1 \/ k = 2)
      by (unfold gi_retries in *; specialize (Hb ltac:(discriminate)); lia).
    apply (connect_leaf_error u p w w1 w' (2 + k) e T1).
    refine (cframe_eq _ _ _ _ _ (cframe_trans _ _ _ _ _ C9 G)).
    destruct Hk' as [-> | ->]; reflexivity.
Qed.

(** X7: [connect] succeeds only with both sessions open.  Every failure
    leaves the Telnet session closed; an exception ("Connection error: ...")
    also closes any FTP session, a failed FTP login leaves none, and the
    other failures (welcome, login, serial number, GI) leave the FTP session
    as it was. *)
Theorem connect_session_outcomes u p o w :
  let '((ok, msg), w') := connect u p o w in
  (ok = true /\ msg = "Connected to camera"%string /\ tn w' = true /\ ftp w' = true) \/
  (ok = false /\ tn w' = false /\
   ((exists e, msg = ("Connection error: " ++ e)%string /\ ftp w' = false) \/
    (exists e, msg = ("FTP connection error: " ++ e)%string /\ ftp w' = false) \/
    ((msg = "Invalid welcome message"%string \/ msg = "Telnet login failed"%string \/
      msg = "Invalid serial number"%string \/
      msg = "GI verification failed after 2 attempts"%string) /\ ftp w' = ftp w))).
Proof.
  pose proof (connect_props u p o w) as H; unfold connect_post in H.
  destruct (connect u p o w) as [[ok msg] w']; exact (proj1 H).
Qed.

(** X8: the Telnet writes of [connect] are a prefix of: user name, password,
    GI, GI.  A success has written at least the first GI; an invalid welcome
    message writes nothing. *)
Theorem connect_telnet_writes u p o w :
  let '((ok, msg), w') := connect u p o w in
  exists new k, trace w' = trace w ++ new /\
    filter is_tel_write new =
      firstn k [EvTelWrite (u ++ crlf)%string; EvTelWrite (p ++ crlf)%string;
                EvTelWrite ("GI" ++ crlf)%string; EvTelWrite ("GI" ++ crlf)%string] /\
    (ok = true -> 3 <= k) /\ (msg = "Invalid welcome message"%string -> k = 0).
Proof.
  pose proof (connect_props u p o w) as H; unfold connect_post in H.
  destruct (connect u p o w) as [[ok msg] w']; exact (proj2 H).
Qed.

(** ** [__init__] *)

Lemma in_range_digit_val lo hi c :
  in_range lo hi c = true ->
  (N.of_nat (nat_of_ascii lo - 48) <= digit_val c <= N.of_nat (nat_of_ascii hi - 48))%N.
Proof.
  unfold in_range, digit_val; intros H; apply andb_true_iff in H as [H1 H2].
  apply Nat.leb_le in H1, H2; lia.
Qed.

Lemma is_digit_val c : is_digit c = true -> (digit_val c <= 9)%N.
Proof.
  unfold is_digit, digit_val; intros H; apply andb_true_iff in H as [H1 H2].
  apply Nat.leb_le in H1, H2; lia.
Qed.

Ltac fold_consts D :=
  repeat match type of D with
  | context [N.of_nat (nat_of_ascii ?a - 48)] =>
      let v := eval vm_compute in (N.of_nat (nat_of_ascii a - 48)) in
      change (N.of_nat (nat_of_ascii a - 48)) with v in D
  end.

Lemma match_H_bound l h r : In (h, r) (match_H l) -> (h < 24)%N.
Proof.
  unfold match_H; intros H.
  destruct l as [|c1 [|c2 rest]]; cbv beta iota zeta in H; rewrite ?app_nil_r in H.
  - contradiction.
  - destruct (is_digit c1) eqn:D; cbv beta iota zeta in H; [|contradiction].
    destruct H as [[= <- _]|[]]; pose proof (is_digit_val _ D); lia.
  - destruct (Ascii.eqb c1 "2" && in_range "0" "3" c2) eqn:D1;
    destruct (in_range "0" "1" c1 && is_digit c2) eqn:D2;
    destruct (is_digit c1) eqn:D3; cbv beta iota zeta in H; rewrite ?in_app_iff in H; cbn [In] in H; rewrite ?in_app_iff in H; cbn [In] in H;
    repeat match goal with
    | H : _ \/ _ |- _ => destruct H as [H|H]
    | H : False |- _ => contradiction
    | H : (_, _) = (_, _) |- _ => apply pair_equal_spec in H as [<- _]
    end;
    repeat match goal with
    | D : _ && _ = true |- _ => apply andb_true_iff in D as [? ?]
    end;
    repeat match goal with
    | D : in_range _ _ _ = true |- _ => apply in_range_digit_val in D; fold_consts D
    | D : is_digit _ = true |- _ => apply is_digit_val in D
    end; lia.
Qed.

Lemma match_M_bound l m r : In (m, r) (match_M l) -> (m < 60)%N.
Proof.
  unfold match_M; intros H.
  destruct l as [|c1 [|c2 rest]]; cbv beta iota zeta in H; rewrite ?app_nil_r in H.
  - contradiction.
  - destruct (is_digit c1) eqn:D; cbv beta iota zeta in H; [|contradiction].
    destruct H as [[= <- _]|[]]; pose proof (is_digit_val _ D); lia.
  - destruct (in_range "0" "5" c1 && is_digit c2) eqn:D2;
    destruct (is_digit c1) eqn:D3; cbv beta iota zeta in H; rewrite ?in_app_iff in H; cbn [In] in H; rewrite ?in_app_iff in H; cbn [In] in H;
    repeat match goal with
    | H : _ \/ _ |- _ => destruct H as [H|H]
    | H : False |- _ => contradiction
    | H : (_, _) = (_, _) |- _ => apply pair_equal_spec in H as [<- _]
    end;
    repeat match goal with
    | D : _ && _ = true |- _ => apply andb_true_iff in D as [? ?]
    end;
    repeat match goal with
    | D : in_range _ _ _ = true |- _ => apply in_range_digit_val in D; fold_consts D
    | D : is_digit _ = true |- _ => apply is_digit_val in D
    end; lia.
Qed.

Lemma match_HM_bound hs h m r :
  match_HM hs = Some (h, m, r) ->
  (exists r0, In (h, r0) hs) /\ exists l, In (m, r) (match_M l).
Proof.
  induction hs as [|[h0 rest] hs IH]; cbn; [discriminate|].
  intros H.
  destruct rest as [|c rest'];
    [destruct (IH H) as [[r0 ?] ?]; split; eauto|].
  destruct (Ascii.eqb c ":");
    [|destruct (IH H) as [[r0 ?] ?]; split; eauto].
  destruct (match_M rest') as [|[m0 r1] ms] eqn:EM.
  - destruct (IH H) as [[r0 ?] ?]; split; eauto.
  - injection H as <- <- <-. split; [eauto|]. exists rest'; rewrite EM; left; reflexivity.
Qed.

Lemma strptime_HM_bound s h m : strptime_HM s = Some (h, m) -> (h < 24)%N /\ (m < 60)%N.
Proof.
  unfold strptime_HM.
  destruct (match_HM _) as [[[h0 m0] [|? ?]]|] eqn:E; try discriminate.
  intros [= <- <-].
  destruct (match_HM_bound _ _ _ _ E) as [[r0 H1] [l H2]].
  split; [exact (match_H_bound _ _ _ H1)|exact (match_M_bound _ _ _ H2)].
Qed.

Lemma missing_keys_nil settings :
  missing_keys settings = [] -> forall k, In k required_keys -> key_in k settings = true.
Proof.
  unfold missing_keys; intros H k Hk.
  destruct (key_in k settings) eqn:E; [reflexivity|].
  assert (In k (filter (fun k => negb (key_in k settings)) required_keys))
    by (apply filter_In; rewrite E; auto).
  rewrite H in H0; contradiction.
Qed.

(** X9: when [__init__] gets past its settings checks, every required key is
    present and [stop_time] is a string that parses to an hour below 24 and a
    minute below 60. *)
Theorem init_settings_accepts settings h m :
  init_settings settings = Return (h, m) ->
  (forall k, In k required_keys -> key_in k settings = true) /\
  (exists s, lookup_setting "stop_time" settings = Some (SStr s) /\
             strptime_HM s = Some (h, m)) /\
  (h < 24)%N /\ (m < 60)%N.
Proof.
  unfold init_settings.
  destruct (missing_keys settings) as [|k ks] eqn:Hm; [|discriminate].
  destruct (lookup_setting "stop_time" settings) as [[s|]|] eqn:Hl; try discriminate.
  destruct (strptime_HM s) as [[h0 m0]|] eqn:Hs; [|discriminate].
  intros [= -> ->].
  split; [exact (missing_keys_nil _ Hm)|].
  split; [eauto|]. exact (strptime_HM_bound _ _ _ Hs).
Qed.

(** X10: a settings dict lacking any required key makes [__init__] raise
    ValueError listing the missing keys, that key among them, before
    [stop_time] is looked at. *)
Theorem init_settings_missing settings k :
  In k required_keys -> key_in k settings = false ->
  In k (missing_keys settings) /\
  init_settings settings =
    Raise ("ValueError: Missing required settings: " ++ repr_keys (missing_keys settings))%string.
Proof.
  intros Hk Hn.
  assert (Hin : In k (missing_keys settings))
    by (unfold missing_keys; apply filter_In; rewrite Hn; auto).
  split; [exact Hin|].
  unfold init_settings.
  destruct (missing_keys settings) as [|k' ks]; [contradiction|reflexivity].
Qed.

Lemma strptime_pad2_table :
  forallb (fun h => forallb (fun m => strptime_pad2_ok h m) (map N.of_nat (seq 0 60)))
    (map N.of_nat (seq 0 24)) = true.
Proof. vm_compute. reflexivity. Qed.

Lemma in_map_seq (x : N) k : (x < N.of_nat k)%N -> In x (map N.of_nat (seq 0 k)).
Proof.
  intros H. apply in_map_iff. exists (N.to_nat x). split; [apply N2Nat.id|].
  apply in_seq. lia.
Qed.

(** X11: every time of day written as zero-padded "HH:MM" is accepted by the
    [stop_time] parsing and gives back the same hour and minute. *)
Theorem strptime_HM_pad2_roundtrip h m :
  (h < 24)%N -> (m < 60)%N ->
  strptime_HM (pad2 h ++ ":" ++ pad2 m)%string = Some (h, m).
Proof.
  intros Hh Hm.
  pose proof strptime_pad2_table as T.
  rewrite forallb_forall in T.
  specialize (T h (in_map_seq h 24 Hh)).
  rewrite forallb_forall in T.
  specialize (T m (in_map_seq m 60 Hm)).
  unfold strptime_pad2_ok in T.
  destruct (strptime_HM _) as [[h' m']|]; [|discriminate].
  apply andb_true_iff in T as [T1 T2]; apply N.eqb_eq in T1, T2; subst; reflexivity.
Qed.

Lemma strptime_HM_pad2_roundtrip_witness :
  strptime_HM (pad2 7 ++ ":" ++ pad2 5)%string = Some (7%N, 5%N).
Proof. apply strptime_HM_pad2_roundtrip; lia. Defined.

Lemma init_settings_accepts_witness :
  (forall k, In k required_keys -> key_in k settings0 = true) /\
  (exists s, lookup_setting "stop_time" settings0 = Some (SStr s) /\
             strptime_HM s = Some (17%N, 30%N)) /\
  (17 < 24)%N /\ (30 < 60)%N.
Proof. apply init_settings_accepts. vm_compute. reflexivity. Defined.

Lemma init_settings_missing_witness :
  In "stop_time"%string (missing_keys (removelast settings0)) /\
  init_settings (removelast settings0) =
    Raise ("ValueError: Missing required settings: " ++
           repr_keys (missing_keys (removelast settings0)))%string.
Proof. apply init_settings_missing; vm_compute; [tauto|reflexivity]. Defined.

(** ** [keep_alive] *)

(** X12: [keep_alive] does not sleep after a successful NOOP: while the
    session is up, no periodic reconnection is due and NOOPs are answered, n
    passes send n NOOPs back to back without the clock advancing. *)
Theorem keep_alive_noop_no_sleep n : forall w,
  ftp_keep_alive_running w = true -> ftp w = true ->
  (clock w - last_reconnect_time w <= 600000)%N ->
  firstn n (ftp_noops w) = repeat None n ->
  run_keep_alive n w =
    w {{ trace ::= fun t => app t (repeat EvFtpNoop n) }} {{ ftp_noops ::= skipn n }}.
Proof.
  induction n as [|n IH]; intros w Hr Hf Hc Hn.
  { destruct w; cbn; rewrite app_nil_r; reflexivity. }
  destruct w as [tn0 ftp0 s0 p0 kr0 st0 tc0 trc0 fs0 lr0 lc0 q0 c0 tr0 fc0 fn0 frt0 ti0 trp0].
  cbn in Hr, Hf, Hc, Hn; subst kr0 ftp0.
  destruct fn0 as [|o rest]; [discriminate|].
  injection Hn as -> Hn.
  cbn [run_keep_alive].
  unfold keep_alive_iteration; cbn [negb ftp_keep_alive_running ftp clock last_reconnect_time].
  assert (Hd : N.ltb 600000 (c0 - lr0) = false) by (apply N.ltb_ge; lia).
  rewrite Hd; cbn.
  rewrite IH by first [reflexivity | exact Hc | exact Hn]; cbn.
  rewrite <- app_assoc; reflexivity.
Qed.

Lemma keep_alive_noop_no_sleep_witness :
  run_keep_alive 3 (w0 {{ ftp_keep_alive_running := true }} {{ ftp_noops := [None; None; None] }}) =
  (w0 {{ ftp_keep_alive_running := true }} {{ ftp_noops := [None; None; None] }})
    {{ trace ::= fun t => app t (repeat EvFtpNoop 3) }} {{ ftp_noops ::= skipn 3 }}.
Proof. apply keep_alive_noop_no_sleep; cbn; first [reflexivity | lia]. Defined.

Lemma kframe_refl w : kframe w w.
Proof. split; [apply ctl_eq_refl|]. exists []; rewrite app_nil_r; auto. Qed.

Lemma kframe_trans w1 w2 w3 : kframe w1 w2 -> kframe w2 w3 -> kframe w1 w3.
Proof.
  intros [C1 (n1 & T1 & E1)] [C2 (n2 & T2 & E2)].
  split; [eapply ctl_eq_trans; eauto|].
  exists (n1 ++ n2); rewrite T2, T1, app_assoc, forallb_app, E1, E2; auto.
Qed.

Lemma kframe_connect_ftp w : kframe w (snd (connect_ftp w)).
Proof.
  split; [apply ctl_connect_ftp|].
  destruct w as [tn0 ftp0 ? ? ? ? ? ? ? ? ? ? ? tr cs ? ? ? ?].
  destruct ftp0, cs as [|[e|] cs]; simpl; rewrite <- ?app_assoc;
    eexists; split; reflexivity.
Qed.

Lemma kframe_emit_noop w : kframe w (emit EvFtpNoop w).
Proof. split; [apply ctl_emit|]. exists [EvFtpNoop]; auto. Qed.

Lemma kframe_pop_noop w : kframe w (snd (pop_noop w)).
Proof.
  destruct (pop_noop w) as [o w'] eqn:E; cbn [snd].
  split; [exact (ctl_pop_noop _ _ _ E)|].
  exists []; rewrite app_nil_r; split; [|reflexivity].
  unfold pop_noop in E; destruct (ftp_noops w); injection E as _ <-; [reflexivity|].
  destruct w; reflexivity.
Qed.

Lemma kframe_sleep w : kframe w (sleep 5000 w).
Proof. split; [apply ctl_sleep|]. exists [EvSleep 5000]; split; [apply trace_sleep|reflexivity]. Qed.

Lemma kframe_iteration w w' : keep_alive_iteration w = Some w' -> kframe w w'.
Proof.
  unfold keep_alive_iteration.
  destruct (ftp_keep_alive_running w) eqn:Hr; cbn [negb]; [|discriminate].
  destruct (ftp w); cbn [negb]; [|intros [= <-]; apply kframe_sleep].
  assert (Hnoop : forall w1, kframe w w1 ->
    (let w := emit EvFtpNoop w1 in
     match pop_noop w with
     | (None, w) => Some w
     | (Some _, w) =>
         if negb (ftp_keep_alive_running w) then None
         else let '(_, w) := connect_ftp w in Some (sleep 5000 w)
     end) = Some w' -> kframe w w').
  { intros w1 K1; cbv zeta.
    pose proof (kframe_trans _ _ _ K1 (kframe_emit_noop w1)) as K2.
    pose proof (kframe_trans _ _ _ K2 (kframe_pop_noop (emit EvFtpNoop w1))) as K3.
    destruct (pop_noop (emit EvFtpNoop w1)) as [[f|] w3]; cbn [snd] in K3.
    - destruct (negb _); [discriminate|].
      pose proof (kframe_trans _ _ _ K3 (kframe_connect_ftp w3)) as K4.
      destruct (connect_ftp w3) as [r w4]; cbn [snd] in K4.
      intros [= <-]. exact (kframe_trans _ _ _ K4 (kframe_sleep w4)).
    - intros [= <-]; exact K3. }
  destruct (N.ltb _ _).
  - pose proof (kframe_connect_ftp w) as K1.
    destruct (connect_ftp w) as [[ok msg] w1]; cbn [snd] in K1.
    destruct ok; cbn [negb].
    + apply Hnoop; exact K1.
    + intros [= <-]; exact (kframe_trans _ _ _ K1 (kframe_sleep w1)).
  - apply Hnoop, kframe_refl.
Qed.

Lemma kframe_run fuel : forall w, kframe w (run_keep_alive fuel w).
Proof.
  induction fuel as [|fuel IH]; intros w; cbn [run_keep_alive]; [apply kframe_refl|].
  destruct (keep_alive_iteration w) as [w'|] eqn:E; [|apply kframe_refl].
  exact (kframe_trans _ _ _ (kframe_iteration _ _ E) (IH w')).
Qed.

Lemma timeout_emit ev w : timeout_count (emit ev w) = timeout_count w.
Proof. destruct w; reflexivity. Qed.

Lemma timeout_sleep ms w : timeout_count (sleep ms w) = timeout_count w.
Proof. destruct w; reflexivity. Qed.

Lemma timeout_connect_ftp w : timeout_count (snd (connect_ftp w)) = timeout_count w.
Proof.
  destruct w as [tn0 ftp0 ? ? ? ? ? ? ? ? ? ? ? tr cs ? ? ? ?].
  destruct ftp0, cs as [|[e|] cs]; reflexivity.
Qed.

Lemma timeout_pop_noop w : timeout_count (snd (pop_noop w)) = timeout_count w.
Proof. destruct w; unfold pop_noop; timeout_crush. Qed.

Lemma timeout_iteration w w' :
  keep_alive_iteration w = Some w' -> timeout_count w' = timeout_count w.
Proof.
  unfold keep_alive_iteration.
  destruct (ftp_keep_alive_running w) eqn:Hr; cbn [negb]; [|discriminate].
  destruct (ftp w); cbn [negb]; [|intros [= <-]; apply timeout_sleep].
  assert (Hnoop : forall w1, timeout_count w1 = timeout_count w ->
    (let w := emit EvFtpNoop w1 in
     match pop_noop w with
     | (None, w) => Some w
     | (Some _, w) =>
         if negb (ftp_keep_alive_running w) then None
         else let '(_, w) := connect_ftp w in Some (sleep 5000 w)
     end) = Some w' -> timeout_count w' = timeout_count w).
  { intros w1 K1; cbv zeta.
    pose proof (timeout_emit EvFtpNoop w1) as K2.
    pose proof (timeout_pop_noop (emit EvFtpNoop w1)) as K3.
    destruct (pop_noop (emit EvFtpNoop w1)) as [[f|] w3]; cbn [snd] in K3.
    - destruct (negb _); [discriminate|].
      pose proof (timeout_connect_ftp w3) as K4.
      destruct (connect_ftp w3) as [r w4]; cbn [snd] in K4.
      intros [= <-]. rewrite timeout_sleep; congruence.
    - intros [= <-]; congruence. }
  destruct (N.ltb _ _).
  - pose proof (timeout_connect_ftp w) as K1.
    destruct (connect_ftp w) as [[ok msg] w1]; cbn [snd] in K1.
    destruct ok; cbn [negb].
    + apply Hnoop; exact K1.
    + intros [= <-]; rewrite timeout_sleep; exact K1.
  - apply Hnoop; reflexivity.
Qed.

Lemma timeout_run fuel : forall w, timeout_count (run_keep_alive fuel w) = timeout_count w.
Proof.
  induction fuel as [|fuel IH]; intros w; cbn [run_keep_alive]; [reflexivity|].
  destruct (keep_alive_iteration w) as [w'|] eqn:E; [|reflexivity].
  rewrite IH; exact (timeout_iteration _ _ E).
Qed.

(** X13: [keep_alive] never does Telnet I/O and never changes the stream
    flags, the counters ([trigger_count] and [timeout_count]), the capture
    time or the image queue; each of its sleeps is the 5 s keep-alive
    interval. *)
Theorem keep_alive_ftp_only fuel w :
  let w' := run_keep_alive fuel w in
  ctl_eq w w' /\ timeout_count w' = timeout_count w /\
  exists new, trace w' = trace w ++ new /\
    Forall (fun ev => is_tel_event ev = false /\ forall ms, ev = EvSleep ms -> ms = 5000%N) new.
Proof.
  destruct (kframe_run fuel w) as [C (new & T & E)].
  split; [exact C|]. split; [apply timeout_run|]. exists new; split; [exact T|].
  apply Forall_forall; intros ev Hin.
  rewrite forallb_forall in E; specialize (E ev Hin).
  unfold ka_event in E; apply andb_true_iff in E as [E1 E2].
  split; [destruct (is_tel_event ev); [discriminate|reflexivity]|].
  intros ms ->; apply N.eqb_eq; exact E2.
Qed.

(** ** After [stop] *)

(** X15: after [stop], starting or resuming the stream and triggering report
    "Not connected to camera", pausing reports "Streaming not active" and a
    native command reports "Error: Not connected to camera", all without any
    effect; the queued results survive [stop]. *)
Theorem after_stop_not_connected cfg c w :
  let w1 := snd (stop w) in
  start_live_stream cfg w1 = ((false, "Not connected to camera"%string), w1) /\
  resume_streaming cfg w1 = ((false, "Not connected to camera"%string), w1) /\
  pause_streaming w1 = ((false, "Streaming not active"%string), w1) /\
  trigger_image w1 = ((false, None, "Not connected to camera"%string), w1) /\
  send_native_command w1 c = (Return (false, "Error: Not connected to camera"%string), w1) /\
  image_queue w1 = image_queue w.
Proof.
  destruct w as [tn0 ftp0 ? ? ? st0 ? ? ? ? ? ? ? ? ? ? ? ? ?].
  destruct tn0, ftp0, st0; repeat split.
Qed.

(** ** [main]: the connection loop *)

Lemma sleep_tn_ftp ms w : tn (sleep ms w) = tn w /\ ftp (sleep ms w) = ftp w.
Proof. destruct w; split; reflexivity. Qed.

(** X16: [main]'s connection loop goes on only with both sessions open;
    when every attempt fails the Telnet session is closed and the last
    failure is still followed by its 1 s sleep. *)
Theorem main_connect_outcome u p n : forall opens w,
  let '(ok, w') := main_connect u p n opens w in
  (ok = true -> tn w' = true /\ ftp w' = true) /\
  (ok = false -> n <> 0 ->
   tn w' = false /\ exists pre, trace w' = pre ++ [EvSleep 1000]).
Proof.
  induction n as [|n IH]; intros opens w; cbn [main_connect].
  { split; [discriminate|]. intros _ H; contradiction. }
  pose proof (connect_props u p (hd None opens) w) as H; unfold connect_post in H.
  destruct (connect u p (hd None opens) w) as [[ok msg] w1].
  destruct H as [H _].
  destruct ok.
  - split; [|discriminate]. intros _.
    destruct H as [(_ & _ & ? & ?) | (? & _)]; [auto|discriminate].
  - destruct H as [(? & _) | (_ & Htn & _)]; [discriminate|].
    destruct n as [|n].
    + cbn [main_connect]. split; [discriminate|]. intros _ _.
      split; [rewrite (proj1 (sleep_tn_ftp _ _)); exact Htn|].
      exists (trace w1); apply trace_sleep.
    + specialize (IH (tl opens) (sleep 1000 w1)).
      destruct (main_connect u p (S n) (tl opens) (sleep 1000 w1)) as [ok w2].
      destruct IH as [IH1 IH2]. split; [exact IH1|]. intros Hf _. apply IH2; auto.
Qed.

(** ** Validation of a command without a space *)

Lemma validate_passes c :
  has_space c = false -> 3 <= length c -> validate c = Return None.
Proof.
  intros Hsp Hlen. unfold validate, cmd_base. rewrite Hsp.
  destruct c as [|x c]; [cbn in Hlen; lia|].
  assert (Hl : Nat.ltb (length (x :: c)) 2 = false) by (apply Nat.ltb_ge; lia).
  rewrite Hl. cbn [orb].
  destruct (String.eqb (lstr (x :: c)) "GV") eqn:E; [|reflexivity].
  apply String.eqb_eq in E.
  apply (f_equal list_ascii_of_string) in E.
  unfold lstr in E; rewrite list_ascii_of_string_of_list_ascii in E.
  rewrite E in Hlen; cbn in Hlen; lia.
Qed.

Lemma take_lines_teof l r : take_lines l = ([], TEOF :: r) -> l = TEOF :: r.
Proof.
  destruct l as [|[s|] l]; cbn; [discriminate| |intros [= ->]; reflexivity].
  destruct (take_lines l); discriminate.
Qed.

Lemma exchange_trace command w :
  (forall rest, tel_in w <> TEOF :: rest) ->
  exists rest, trace (snd (exchange command w)) =
    trace w ++ EvTelDrain :: EvTelWrite (lstr command ++ crlf) :: rest.
Proof.
  intros Hin. unfold exchange.
  destruct (tel_drain w) as [[u|e] w1] eqn:E.
  2:{ exfalso. unfold tel_drain in E. rewrite tel_in_emit in E.
      destruct (take_lines (tel_in w)) as [[|? ?] [|[?|] r]] eqn:T; try discriminate.
      exact (Hin r (take_lines_teof _ _ T)). }
  pose proof (trace_tel_drain w) as T1; rewrite E in T1; cbn [snd] in T1.
  pose proof (trace_tel_write (lstr command ++ crlf) w1) as T2.
  set (w2 := tel_write _ w1) in *.
  assert (Hw : forall w', tel_only w2 w' ->
    exists rest, trace w' = trace w ++ EvTelDrain :: EvTelWrite (lstr command ++ crlf) :: rest).
  { intros w' (_ & _ & _ & _ & _ & _ & new & Tn & _).
    exists new; rewrite Tn, T2, T1, <- !app_assoc; reflexivity. }
  pose proof (tel_only_read_until w2) as H3.
  destruct (tel_read_until w2) as [[status|e] w3]; cbn [snd] in H3; [|exact (Hw _ H3)].
  destruct (tel_only_read_more 5 w3) as (H4 & _ & _).
  destruct (read_more 5 w3) as [more w4]; cbn [snd] in H4.
  pose proof (tel_only_drain w4) as H5.
  assert (H34 : tel_only w2 w4) by (eapply tel_only_trans; eauto).
  destruct (tel_drain w4) as [[v|e] w5]; cbn [snd] in H5;
    [|exact (Hw _ (tel_only_trans _ _ _ H34 H5))].
  apply Hw.
  destruct (String.eqb status "1"); [|destruct (String.eqb status "0");
    [|destruct (String.eqb status "-1" || String.eqb status "-2")]];
    exact (tel_only_trans _ _ _ H34 H5).
Qed.

(** C2 (code bug): the source does not refuse a malformed [GV] command that
    has no space.  Its leading token is then the whole command, so the
    [cmd_base == "GV"] guard of the shape test (lines 230-232) fails for any
    such command of 3 or more characters, e.g. [GVA05] or [GVAB005].  On a
    connected controller whose link is not closed, such a command passes
    validation, the pending input is drained and the command is written to
    the Telnet link, where the spec says it fails with a validation error
    before reaching the transport. *)
Theorem send_native_command_sends_malformed_gv w command :
  tn w = true -> (forall rest, tel_in w <> TEOF :: rest) ->
  claim_malformed (normalize command) = true ->
  has_space (normalize command) = false -> 3 <= length (normalize command) ->
  exists rest, trace (snd (send_native_command w command)) =
    trace w ++ EvTelDrain :: EvTelWrite (lstr (normalize command) ++ crlf) :: rest.
Proof.
  intros Htn Hin _ Hsp Hlen.
  unfold send_native_command. rewrite Htn; cbn [negb].
  rewrite (validate_passes _ Hsp Hlen).
  pose proof (exchange_trace (normalize command) w Hin) as [rest T].
  destruct (exchange (normalize command) w) as [r w'].
  exists rest; exact T.
Qed.

Lemma send_native_command_sends_malformed_gv_witness :
  claim_malformed (normalize "gva05") = true /\
  exists rest, trace (snd (send_native_command w0 "gva05")) =
    trace w0 ++ EvTelDrain :: EvTelWrite ("GVA05" ++ crlf)%string :: rest.
Proof.
  split; [vm_compute; reflexivity|].
  apply (send_native_command_sends_malformed_gv w0 "gva05");
    [reflexivity | intros rest; discriminate | vm_compute; reflexivity
    | vm_compute; reflexivity | vm_compute; lia].
Defined.
